(** * podman.ipv6: derivation of a ULA IPv6 subnet from an IPv4 subnet

    A shallow embedding of [deriveUlaFromIpv4] (module [podman.ipv6] of
    luci-app-podman) together with the ECMAScript built-ins it calls:
    [String.prototype.split], [Number] applied to a string, the operators
    [<<] and [|], [Number.prototype.toString(16)],
    [String.prototype.padStart], [Array.prototype.slice] and
    [Array.prototype.join].

    Data model.
    - A JavaScript string is a sequence of UTF-16 code units: [list N].
      [str] turns an ASCII literal into such a sequence.
    - A Number is an IEEE 754 binary64 value: [spec_float] with
      [prec = 53] and [emax = 1024].  The results of the 32-bit operators
      are integers in the int32 range and are kept as [Z], with the
      wrap-around written out ([wrap32]).
    - [undefined] is [None]: indexing an array out of range gives [None],
      calling a method on it throws [TypeError].

    The list views (secrets, containers, pods) are covered where they
    compute on the RPC data: the callbacks of [load], the error test of
    [render], the Name and Driver columns and the selection callback of
    the secrets view.  Their data is a [value]: a JSON value or
    [undefined]. *)

From Stdlib Require Import String Ascii.
From Stdlib Require Import ZArith NArith List Bool Lia.
From Stdlib Require Import Floats.SpecFloat.
Import ListNotations.

Local Open Scope N_scope.

(** * The ECMAScript built-ins *)

Module JS.

(** ** Strings *)

Definition code_unit := N.
Definition jsstring := list code_unit.

Definition str (s : string) : jsstring :=
  map N_of_ascii (list_ascii_of_string s).
Arguments str s%_string.

Fixpoint jsstring_eqb (a b : jsstring) : bool :=
  match a, b with
  | [], [] => true
  | x :: a', y :: b' => (x =? y) && jsstring_eqb a' b'
  | _, _ => false
  end.

(** ** Completions: a call returns normally or throws *)

Inductive exception := TypeError.

Inductive completion (A : Type) :=
| Normal (a : A)
| Throw (e : exception).
Arguments Normal {A} a.
Arguments Throw {A} e.

Definition bind {A B} (c : completion A) (k : A -> completion B)
  : completion B :=
  match c with
  | Normal a => k a
  | Throw e => Throw e
  end.

Notation "x <- c ;; k" := (bind c (fun x => k))
  (at level 61, c at next level, right associativity).

(** [a[i]]: [undefined] when [i] is not an index of [a]. *)
Definition index {A} (a : list A) (i : nat) : option A := nth_error a i.

(** [v === s] for a string [s]: [undefined] equals no string. *)
Definition strict_equals (v : option jsstring) (s : jsstring) : bool :=
  match v with
  | Some t => jsstring_eqb t s
  | None => false
  end.

(** ** String.prototype.split with a string separator *)

Fixpoint starts_with (sep s : jsstring) : bool :=
  match sep, s with
  | [], _ => true
  | _ :: _, [] => false
  | a :: sep', b :: s' => (a =? b) && starts_with sep' s'
  end.

(** Left-to-right scan for the occurrences of [sep]; [cur] holds the
    current piece reversed, [skip] the code units of a matched separator
    still to pass over. *)
Fixpoint split_from (sep s : jsstring) (skip : nat) (cur : jsstring)
  : list jsstring :=
  match s with
  | [] => [rev cur]
  | c :: s' =>
      match skip with
      | S k => split_from sep s' k cur
      | O =>
          if starts_with sep s
          then rev cur :: split_from sep s' (length sep - 1) []
          else split_from sep s' 0 (c :: cur)
      end
  end.

Definition split (s sep : jsstring) : list jsstring :=
  match sep with
  | [] => map (fun c => [c]) s
  | _ :: _ => split_from sep s 0 []
  end.

(** [x.split(sep)] where [x] may be [undefined]. *)
Definition call_split (x : option jsstring) (sep : jsstring)
  : completion (list jsstring) :=
  match x with
  | Some s => Normal (split s sep)
  | None => Throw TypeError
  end.

(** ** Array.prototype.join and String.prototype.padStart *)

Fixpoint join (a : list jsstring) (sep : jsstring) : jsstring :=
  match a with
  | [] => []
  | [x] => x
  | x :: a' => x ++ sep ++ join a' sep
  end.

(** [fill] repeated and cut to [n] code units. *)
Fixpoint fill_to (n : nat) (fill cur : jsstring) : jsstring :=
  match n with
  | O => []
  | S n' =>
      match cur with
      | [] => match fill with
              | [] => []
              | c :: r => c :: fill_to n' fill r
              end
      | c :: r => c :: fill_to n' fill r
      end
  end.

Definition padStart (s : jsstring) (maxLength : nat) (fill : jsstring)
  : jsstring :=
  if (maxLength <=? length s)%nat then s
  else fill_to (maxLength - length s) fill fill ++ s.

(** ** Number(string): StringToNumber *)

Definition double := spec_float.
Definition round_Z (n : Z) : double := binary_normalize 53 1024 n 0 false.
(** The binary64 value nearest to [m / d], ties to even. *)
Definition round_ratio (m d : positive) : double :=
  SFdiv 53 1024 (S754_finite false m 0) (S754_finite false d 0).

Definition is_StrWhiteSpaceChar (c : code_unit) : bool :=
  existsb (N.eqb c)
    [9; 10; 11; 12; 13; 32; 160; 5760; 8232; 8233; 8239; 8287; 12288; 65279]
  || ((8192 <=? c) && (c <=? 8202)).

Fixpoint trim_start (s : jsstring) : jsstring :=
  match s with
  | [] => []
  | c :: s' => if is_StrWhiteSpaceChar c then trim_start s' else s
  end.

Definition trim (s : jsstring) : jsstring :=
  rev (trim_start (rev (trim_start s))).

Definition digit_value (radix : N) (c : code_unit) : option N :=
  let v := if (48 <=? c) && (c <=? 57) then Some (c - 48)
           else if (97 <=? c) && (c <=? 122) then Some (c - 87)
           else if (65 <=? c) && (c <=? 90) then Some (c - 55)
           else None in
  match v with
  | Some d => if d <? radix then Some d else None
  | None => None
  end.

(** The value of a digit sequence, [None] when a code unit is no digit. *)
Fixpoint digits_value (radix acc : N) (s : jsstring) : option N :=
  match s with
  | [] => Some acc
  | c :: s' =>
      match digit_value radix c with
      | Some d => digits_value radix (acc * radix + d) s'
      | None => None
      end
  end.

Definition nonempty_digits (radix : N) (s : jsstring) : option N :=
  match s with
  | [] => None
  | _ :: _ => digits_value radix 0 s
  end.

(** The longest prefix of decimal digits, and what follows it. *)
Fixpoint span_digits (s : jsstring) : jsstring * jsstring :=
  match s with
  | [] => ([], [])
  | c :: s' =>
      match digit_value 10 c with
      | Some _ => let (d, r) := span_digits s' in (c :: d, r)
      | None => ([], s)
      end
  end.

(** ExponentPart, optional: the exponent, [None] when malformed. *)
Definition exponent_part (s : jsstring) : option Z :=
  match s with
  | [] => Some 0%Z
  | c :: r =>
      if (c =? 101) || (c =? 69) then
        match r with
        | 43 :: d => option_map Z.of_N (nonempty_digits 10 d)
        | 45 :: d => option_map (fun n => Z.opp (Z.of_N n)) (nonempty_digits 10 d)
        | _ => option_map Z.of_N (nonempty_digits 10 r)
        end
      else None
  end.

(** The Number value of the decimal [m * 10^e]. *)
Definition decimal_value (m : N) (e : Z) : double :=
  match m with
  | N0 => S754_zero false
  | Npos p =>
      match e with
      | Zneg k => round_ratio p (10 ^ k)%positive
      | _ => round_Z (Zpos p * 10 ^ e)
      end
  end.

(** StrUnsignedDecimalLiteral *)
Definition unsigned_decimal (s : jsstring) : double :=
  if jsstring_eqb s (str "Infinity") then S754_infinity false
  else
    let (ip, r1) := span_digits s in
    let '(fp, r2) := match r1 with
                     | 46 :: r => span_digits r
                     | _ => ([], r1)
                     end in
    match ip ++ fp with
    | [] => S754_nan
    | _ :: _ =>
        match digits_value 10 0 (ip ++ fp), exponent_part r2 with
        | Some m, Some e => decimal_value m (e - Z.of_nat (length fp))
        | _, _ => S754_nan
        end
    end.

(** NonDecimalIntegerLiteral: 0x, 0o and 0b forms. *)
Definition non_decimal (s : jsstring) : option double :=
  match s with
  | 48 :: p :: d =>
      let radix := if (p =? 120) || (p =? 88) then Some 16
                   else if (p =? 111) || (p =? 79) then Some 8
                   else if (p =? 98) || (p =? 66) then Some 2
                   else None in
      match radix with
      | Some r =>
          Some match nonempty_digits r d with
               | Some n => round_Z (Z.of_N n)
               | None => S754_nan
               end
      | None => None
      end
  | _ => None
  end.

Definition Number (s : jsstring) : double :=
  match trim s with
  | [] => S754_zero false
  | c :: r =>
      match non_decimal (c :: r) with
      | Some x => x
      | None =>
          if c =? 43 then unsigned_decimal r
          else if c =? 45 then SFopp (unsigned_decimal r)
          else unsigned_decimal (c :: r)
      end
  end.

(** ToNumber of an array element: [undefined] becomes NaN. *)
Definition ToNumber (v : option double) : double :=
  match v with
  | Some x => x
  | None => S754_nan
  end.

(** ** ToInt32 and the 32-bit operators *)

Local Open Scope Z_scope.

(** truncate(x) for finite [x]; NaN, zeros and infinities give 0. *)
Definition truncate (x : double) : Z :=
  match x with
  | S754_finite s m e => cond_Zopp s (Z.shiftl (Zpos m) e)
  | _ => 0
  end.

Definition wrap32 (z : Z) : Z :=
  let u := z mod 2 ^ 32 in
  if 2 ^ 31 <=? u then u - 2 ^ 32 else u.

Definition ToInt32 (x : double) : Z := wrap32 (truncate x).

(** [a << n] for an int32 [a] and a literal count [n]. *)
Definition shl32 (a n : Z) : Z := wrap32 (Z.shiftl a (n mod 32)).

(** [a | b] for int32 operands. *)
Definition or32 (a b : Z) : Z := wrap32 (Z.lor a b).

(** ** Number.prototype.toString(16) on an integer *)

Definition hex_digit (d : N) : code_unit :=
  (if d <? 10 then 48 + d else 87 + d)%N.

Fixpoint to_radix16 (fuel : nat) (n : N) (acc : jsstring) : jsstring :=
  match fuel with
  | O => acc
  | S fuel' =>
      let acc' := hex_digit (n mod 16) :: acc in
      if (n / 16 =? 0)%N then acc' else to_radix16 fuel' (n / 16)%N acc'
  end.

Definition hex_of_N (n : N) : jsstring :=
  to_radix16 (S (N.to_nat (N.log2 n))) n [].

Definition toString16 (z : Z) : jsstring :=
  if z <? 0 then 45%N :: hex_of_N (Z.abs_N z) else hex_of_N (Z.abs_N z).

End JS.

Import JS.
Local Open Scope Z_scope.

(** * Module podman.ipv6 *)

Record DerivedIpv6 := {
  ipv6subnet : jsstring;
  ipv6gateway : jsstring
}.

(** [while (hextets.length < 3) hextets.push('0')]: the loop adds one
    element a round, so three rounds are always enough
    ([push_zeros_exit]). *)
Fixpoint push_zeros (fuel : nat) (hextets : list jsstring) : list jsstring :=
  match fuel with
  | O => hextets
  | S fuel' =>
      if (length hextets <? 3)%nat
      then push_zeros fuel' (hextets ++ [str "0"])
      else hextets
  end.

Definition deriveUlaFromIpv4 (ipv4 ula_prefix : jsstring)
  : completion DerivedIpv6 :=
  (* 1. Process IPv4 address *)
  let ipv4Address := index (split ipv4 (str "/")) 0 in
  parts <- call_split ipv4Address (str ".") ;;
  let octets := map Number parts in
  let octet3 := index octets 2 in
  let octet4 := index octets 3 in
  let subnetIdHex :=
    padStart
      (toString16
         (or32 (shl32 (ToInt32 (ToNumber octet3)) 8)
            (ToInt32 (ToNumber octet4))))
      4 (str "0") in
  (* 2. Process ULA prefix *)
  let ulaAddress := index (split ula_prefix (str "/")) 0 in
  ulaParts <- call_split ulaAddress (str "::") ;;
  let ulaBase := index ulaParts 0 in
  hextets <- call_split ulaBase (str ":") ;;
  let hextets :=
    if (length hextets =? 1)%nat && strict_equals (index hextets 0) []
    then []
    else hextets in
  let hextets := push_zeros 3 hextets in
  let ulaNetworkBase := join (firstn 3 hextets) (str ":") in
  (* 3. Build subnet and gateway *)
  let ipv6SubnetAddress :=
    ulaNetworkBase ++ str ":" ++ subnetIdHex ++ str "::" in
  Normal {| ipv6subnet := ipv6SubnetAddress ++ str "/64";
            ipv6gateway := ipv6SubnetAddress ++ str "1" |}.

(** ** The variables of the function, as functions of its arguments *)

(** [octets] *)
Definition ipv4_octets (ipv4 : jsstring) : completion (list double) :=
  let ipv4Address := index (split ipv4 (str "/")) 0 in
  parts <- call_split ipv4Address (str ".") ;;
  Normal (map Number parts).

(** [subnetIdHex] *)
Definition subnet_id_hex (octet3 octet4 : option double) : jsstring :=
  padStart
    (toString16
       (or32 (shl32 (ToInt32 (ToNumber octet3)) 8) (ToInt32 (ToNumber octet4))))
    4 (str "0").

(** [hextets] when the padding loop is entered *)
Definition ula_hextets (ula_prefix : jsstring) : completion (list jsstring) :=
  let ulaAddress := index (split ula_prefix (str "/")) 0 in
  ulaParts <- call_split ulaAddress (str "::") ;;
  let ulaBase := index ulaParts 0 in
  hextets <- call_split ulaBase (str ":") ;;
  Normal (if (length hextets =? 1)%nat && strict_equals (index hextets 0) []
          then []
          else hextets).

(** ** Observations used in the statements *)

Definition COLON : code_unit := 58%N.

(** The integer a Number is, when it is one. *)
Definition integer_value (x : double) : option Z :=
  match x with
  | S754_zero _ => Some 0
  | S754_finite s m e =>
      if (0 <=? e) || (Zpos m mod 2 ^ (- e) =? 0)
      then Some (cond_Zopp s (Z.shiftl (Zpos m) e))
      else None
  | _ => None
  end.

(** The value of an array element that is an integer Number. *)
Definition octet_value (v : option double) : option Z :=
  match v with
  | Some x => integer_value x
  | None => None
  end.

Definition valid_octet (v : option double) (n : Z) : Prop :=
  octet_value v = Some n /\ 0 <= n <= 255.

Definition is_lower_hex (c : code_unit) : bool :=
  ((48 <=? c) && (c <=? 57) || (97 <=? c) && (c <=? 102))%N.

(** A hextet written with exactly four lowercase hexadecimal digits. *)
Definition is_hex4 (h : jsstring) : bool :=
  (length h =? 4)%nat && forallb is_lower_hex h.

(** The [i]-th colon-separated group of an address text. *)
Definition hextet (i : nat) (address : jsstring) : option jsstring :=
  index (split address (str ":")) i.

(** Three decimal digits for an octet, as in "020". *)
Definition octet_text (n : Z) : jsstring :=
  map (fun d => Z.to_N (48 + d)) [n / 100; (n / 10) mod 10; n mod 10].

Definition dotted (a b c d : jsstring) : jsstring :=
  a ++ str "." ++ b ++ str "." ++ c ++ str "." ++ d.

Definition DOT : code_unit := 46%N.
Definition SLASH : code_unit := 47%N.

(** [octet_text n] is plain digits and [Number] reads it back as [n]. *)
Definition octet_text_ok (n : Z) : bool :=
  match integer_value (Number (octet_text n)) with
  | Some m => m =? n
  | None => false
  end
  && forallb (fun c => negb (c =? DOT)%N && negb (c =? SLASH)%N)
       (octet_text n).

(** The text of one leading hextet: not empty, no colon, no slash. *)
Definition hextet_text (h : jsstring) : Prop :=
  h <> [] /\ ~ In COLON h /\ ~ In SLASH h.

Definition is_hextet_text (h : jsstring) : bool :=
  match h with
  | [] => false
  | _ :: _ => forallb (fun c => negb (c =? COLON)%N && negb (c =? SLASH)%N) h
  end.

(** A ULA prefix text: leading hextets, "::", and whatever follows. *)
Definition ula_text (leading : list jsstring) (rest : jsstring) : jsstring :=
  join leading (str ":") ++ str "::" ++ rest.

(** The four hexadecimal digits of a 16-bit value, most significant first. *)
Definition hex4 (n : N) : jsstring :=
  [hex_digit (n / 16 / 16 / 16 mod 16); hex_digit (n / 16 / 16 mod 16);
   hex_digit (n / 16 mod 16); hex_digit (n mod 16)]%N.

(** [s] holds no code unit [c]. *)
Definition lacks (c : code_unit) (s : jsstring) : bool :=
  negb (existsb (N.eqb c) s).

(** One dot-separated component of an IPv4 address text. *)
Definition is_component (s : jsstring) : bool :=
  lacks DOT s && lacks SLASH s.

Definition MINUS : code_unit := 45%N.

(** The value of [(octet3 << 8) | octet4]. *)
Definition subnet_id_value (octet3 octet4 : option double) : Z :=
  or32 (shl32 (ToInt32 (ToNumber octet3)) 8) (ToInt32 (ToNumber octet4)).

(** The decimal text of an octet, without leading zeros, as in "20". *)
Definition decimal_octet (n : Z) : jsstring :=
  map (fun d => Z.to_N (48 + d))
    (if n <? 10 then [n]
     else if n <? 100 then [n / 10; n mod 10]
     else [n / 100; (n / 10) mod 10; n mod 10]).

(** [decimal_octet n] is one component and [Number] reads it as [n]. *)
Definition decimal_octet_ok (n : Z) : bool :=
  match integer_value (Number (decimal_octet n)) with
  | Some m => m =? n
  | None => false
  end
  && is_component (decimal_octet n).

(** A dotted quad with an optional prefix length, as in "192.168.20.0/24". *)
Definition ipv4_text (o1 o2 o3 o4 : Z) (suffix : option jsstring) : jsstring :=
  dotted (decimal_octet o1) (decimal_octet o2) (decimal_octet o3)
    (decimal_octet o4)
  ++ match suffix with
     | Some len => str "/" ++ len
     | None => []
     end.

(** * The list views: secrets, containers, pods

    The views read the data returned by the RPC layer: JSON values, and
    [undefined] for what is absent.  Property reads cover the own
    properties of objects, the indices and [length] of arrays and strings;
    none of the keys read by the views names an inherited property.  [_]
    is LuCI's translation function, taken as the parameter [translate]. *)

#[warnings="-register-all"]
Inductive value :=
| Undefined
| Null
| Bool (b : bool)
| Num (x : double)
| Str (s : jsstring)
| Arr (items : list value)
| Obj (props : list (jsstring * value)).

Definition ToBoolean (v : value) : bool :=
  match v with
  | Undefined | Null => false
  | Bool b => b
  | Num (S754_zero _) | Num S754_nan => false
  | Num _ => true
  | Str [] => false
  | Str (_ :: _) => true
  | Arr _ | Obj _ => true
  end.

Definition is_nullish (v : value) : bool :=
  match v with
  | Undefined | Null => true
  | _ => false
  end.

Fixpoint lookup (key : jsstring) (props : list (jsstring * value)) : value :=
  match props with
  | [] => Undefined
  | (k, v) :: rest => if jsstring_eqb k key then v else lookup key rest
  end.

(** A key that is a canonical array index, as "0" or "12". *)
Definition array_index (key : jsstring) : option nat :=
  match key with
  | [] => None
  | [48%N] => Some O
  | c :: _ =>
      if (c =? 48)%N then None
      else option_map N.to_nat (digits_value 10 0 key)
  end.

(** [v.key] for a key written in the code: an own property, an index or
    [length]; reading a property of [undefined] or [null] throws. *)
Definition get (v : value) (key : jsstring) : completion value :=
  match v with
  | Undefined | Null => Throw TypeError
  | Bool _ | Num _ => Normal Undefined
  | Str s =>
      Normal
        (if jsstring_eqb key (str "length")
         then Num (round_Z (Z.of_nat (length s)))
         else match array_index key with
              | Some i => match nth_error s i with
                          | Some c => Str [c]
                          | None => Undefined
                          end
              | None => Undefined
              end)
  | Arr items =>
      Normal
        (if jsstring_eqb key (str "length")
         then Num (round_Z (Z.of_nat (length items)))
         else match array_index key with
              | Some i => nth i items Undefined
              | None => Undefined
              end)
  | Obj props => Normal (lookup key props)
  end.

(** [a || b] for a [b] that is a literal or a call of [_]. *)
Definition or_else (a b : value) : value :=
  if ToBoolean a then a else b.

(** The RPC promise, settled. *)
Inductive settled :=
| Fulfilled (v : value)
| Rejected (reason : value).

Module secrets.

(** [load]: [.then((secrets) => ({ secrets: secrets || [] }))] *)
Definition load_then (secrets : value) : value :=
  Obj [(str "secrets", or_else secrets (Arr []))].

(** [load]: [.catch((err) => ({ error: err.message || _('...') }))] *)
Definition load_catch (translate : jsstring -> jsstring) (err : value)
  : completion value :=
  message <- get err (str "message") ;;
  Normal (Obj [(str "error",
                or_else message
                  (Str (translate (str "Failed to load secrets"))))]).

(** [load]: the promise [list().then(...).catch(...)]; [Normal] is
    fulfilled, [Throw] rejected. *)
Definition load (translate : jsstring -> jsstring) (rpc : settled)
  : completion value :=
  match rpc with
  | Fulfilled secrets => Normal (load_then secrets)
  | Rejected err => load_catch translate err
  end.

(** [render]: the test [data && data.error] of its first statement. *)
Definition render_error_test (data : value) : completion bool :=
  c <- (if ToBoolean data then get data (str "error") else Normal data) ;;
  Normal (ToBoolean c).

(** [o.text] of the Name column:
    [secret.Spec && secret.Spec.Name ? secret.Spec.Name
       : (secret.Name || _('Unknown'))] *)
Definition Name_text (translate : jsstring -> jsstring) (secret : value)
  : completion value :=
  spec <- get secret (str "Spec") ;;
  c <- (if ToBoolean spec
        then spec' <- get secret (str "Spec") ;; get spec' (str "Name")
        else Normal spec) ;;
  if ToBoolean c
  then spec' <- get secret (str "Spec") ;; get spec' (str "Name")
  else name <- get secret (str "Name") ;;
       Normal (or_else name (Str (translate (str "Unknown")))).

(** The callback of [getSelectedSecrets]:
    [secret.Spec && secret.Spec.Name ? secret.Spec.Name : secret.Name] *)
Definition selected_name (secret : value) : completion value :=
  spec <- get secret (str "Spec") ;;
  c <- (if ToBoolean spec
        then spec' <- get secret (str "Spec") ;; get spec' (str "Name")
        else Normal spec) ;;
  if ToBoolean c
  then spec' <- get secret (str "Spec") ;; get spec' (str "Name")
  else get secret (str "Name").

(** [o.cfgvalue] of the Driver column, from its second statement on:
    [secret] is what the first statement read from LuCI's JSONMap,
    [this.map.data.data[sectionId]]. *)
Definition Driver_cfgvalue (translate : jsstring -> jsstring)
  (secret : value) : completion value :=
  spec <- get secret (str "Spec") ;;
  c1 <- (if ToBoolean spec
         then spec' <- get secret (str "Spec") ;; get spec' (str "Driver")
         else Normal spec) ;;
  c2 <- (if ToBoolean c1
         then spec' <- get secret (str "Spec") ;;
              driver <- get spec' (str "Driver") ;;
              get driver (str "Name")
         else Normal c1) ;;
  if ToBoolean c2
  then spec' <- get secret (str "Spec") ;;
       driver <- get spec' (str "Driver") ;;
       get driver (str "Name")
  else Normal (Str (translate (str "file"))).

End secrets.

Module containers.

(** [load]: [.then((containers) => ({ containers: containers || [] }))] *)
Definition load_then (containers : value) : value :=
  Obj [(str "containers", or_else containers (Arr []))].

Definition load_catch (translate : jsstring -> jsstring) (err : value)
  : completion value :=
  message <- get err (str "message") ;;
  Normal (Obj [(str "error",
                or_else message
                  (Str (translate (str "Failed to load containers"))))]).

Definition load (translate : jsstring -> jsstring) (rpc : settled)
  : completion value :=
  match rpc with
  | Fulfilled containers => Normal (load_then containers)
  | Rejected err => load_catch translate err
  end.

(** [render]: the test [data && data.error] of its first statement. *)
Definition render_error_test (data : value) : completion bool :=
  c <- (if ToBoolean data then get data (str "error") else Normal data) ;;
  Normal (ToBoolean c).

End containers.

Module pods.

(** [load]: [.then((pods) => ({ pods: pods || [] }))] *)
Definition load_then (pods : value) : value :=
  Obj [(str "pods", or_else pods (Arr []))].

Definition load_catch (translate : jsstring -> jsstring) (err : value)
  : completion value :=
  message <- get err (str "message") ;;
  Normal (Obj [(str "error",
                or_else message
                  (Str (translate (str "Failed to load pods"))))]).

Definition load (translate : jsstring -> jsstring) (rpc : settled)
  : completion value :=
  match rpc with
  | Fulfilled pods => Normal (load_then pods)
  | Rejected err => load_catch translate err
  end.

(** [render]: the test [data && data.error] of its first statement. *)
Definition render_error_test (data : value) : completion bool :=
  c <- (if ToBoolean data then get data (str "error") else Normal data) ;;
  Normal (ToBoolean c).

(** [o.text] of the Name column: [pod.Name || _('Unknown')] *)
Definition Name_text (translate : jsstring -> jsstring) (pod : value)
  : completion value :=
  name <- get pod (str "Name") ;;
  Normal (or_else name (Str (translate (str "Unknown")))).

End pods.

(** What [load] hands to [render]: the list under [key], never falsy, and
    no error test passed, when the RPC promise is fulfilled; an error
    message that passes the test when it is rejected with a reason that is
    not [null] or [undefined]; a rejection of [load] itself otherwise. *)
Definition load_contract (key : jsstring)
  (load : settled -> completion value)
  (render_error_test : value -> completion bool) : Prop :=
  (forall v, exists data list,
      load (Fulfilled v) = Normal data
      /\ get data key = Normal list
      /\ ToBoolean list = true
      /\ (ToBoolean v = true -> list = v)
      /\ (ToBoolean v = false -> list = Arr [])
      /\ render_error_test data = Normal false)
  /\ (forall err, is_nullish err = false ->
        exists data e,
          load (Rejected err) = Normal data
          /\ get data (str "error") = Normal e
          /\ ToBoolean e = true
          /\ render_error_test data = Normal true)
  /\ (forall err, is_nullish err = true ->
        load (Rejected err) = Throw TypeError).

(** * Properties *)

Ltac by_evaluation := vm_compute; reflexivity.

(** ** The built-ins on sample inputs *)

Example split_double_colon :
  map (fun s => split (str s) (str "::"))
    ["fd52:425::"; "::"; "a:::b"; "fd52"; ""]%string
  = [[str "fd52:425"; []]; [[]; []]; [str "a"; str ":b"]; [str "fd52"]; [[]]].
Proof. by_evaluation. Qed.

Example Number_integers :
  map (fun s => integer_value (Number (str s)))
    ["20"; " 20 "; "020"; "-1"; "256"; "0x14"; "2e1"; "1.5"; ""; "-0"]%string
  = [Some 20; Some 20; Some 20; Some (-1); Some 256; Some 20; Some 20;
     None; Some 0; Some 0].
Proof. by_evaluation. Qed.

Example Number_not_a_number :
  map (fun s => Number (str s)) ["a"; "1e"; "."; "0x"; "1 2"; "--1"]%string
  = repeat S754_nan 6.
Proof. by_evaluation. Qed.

(** Round to nearest, ties to even; overflow to Infinity. *)
Example Number_rounding :
  map (fun s => Number (str s))
    ["0.5"; "0.1"; "9007199254740993"; "0.99999999999999999999";
     "1e400"; "-Infinity"; "4.9e-324"; "2e-324"]%string
  = [S754_finite false 4503599627370496 (-53);
     S754_finite false 7205759403792794 (-56);
     S754_finite false 4503599627370496 1;
     S754_finite false 4503599627370496 (-52);
     S754_infinity false; S754_infinity true;
     S754_finite false 1 (-1074); S754_zero false].
Proof. by_evaluation. Qed.

Example ToInt32_wraps :
  map (fun s => ToInt32 (Number (str s)))
    ["255"; "-1"; "2147483648"; "4294967296"; "4294967297.9"; "1e400"; "x"]%string
  = [255; -1; -2147483648; 0; 1; 0; 0].
Proof. by_evaluation. Qed.

Example subnet_id_hex_samples :
  map (fun p => subnet_id_hex (Some (Number (str (fst p))))
                  (Some (Number (str (snd p)))))
    [("20", "0"); ("5", "5"); ("0", "1"); ("255", "255"); ("256", "0");
     ("-1", "0"); ("8388608", "0")]%string
  = [str "1400"; str "0505"; str "0001"; str "ffff"; str "10000";
     str "-100"; str "-80000000"].
Proof. by_evaluation. Qed.

(** The input of the second example of the function's documentation:
    octets 5 and 0 give "0500" (the documentation writes "5905"). *)
Example scenario_short_prefix :
  deriveUlaFromIpv4 (str "10.89.5.0/24") (str "fd52:425::/48")
  = Normal {| ipv6subnet := str "fd52:425:0:0500::/64";
              ipv6gateway := str "fd52:425:0:0500::1" |}.
Proof. by_evaluation. Qed.

(** ** split *)

Lemma split_from_not_nil sep s skip cur :
  split_from sep s skip cur <> [].
Proof.
  revert skip cur; induction s as [|c s IH]; intros skip cur; simpl.
  - discriminate.
  - destruct skip; [destruct (starts_with sep (c :: s))|]; try discriminate;
      apply IH.
Qed.

Lemma split_index_0 s c sep :
  index (split s (c :: sep)) 0 = Some (hd [] (split s (c :: sep))).
Proof.
  unfold split.
  destruct (split_from (c :: sep) s 0 []) eqn:E; [|reflexivity].
  now apply split_from_not_nil in E.
Qed.

(** Splitting on a single code unit [c]. *)
Section SplitOnCodeUnit.

Variable c : code_unit.

Lemma split_from_char_app a b cur :
  ~ In c a ->
  split_from [c] (a ++ c :: b) 0 cur = (rev cur ++ a) :: split_from [c] b 0 [].
Proof.
  revert cur; induction a as [|x a IH]; intros cur Hin; simpl.
  - rewrite N.eqb_refl; simpl. now rewrite app_nil_r.
  - destruct (N.eqb_spec c x) as [->|Hne]; [exfalso; apply Hin; now left|].
    simpl. rewrite IH by (intro; apply Hin; now right).
    simpl. now rewrite <- app_assoc.
Qed.

Lemma split_from_char_none a cur :
  ~ In c a -> split_from [c] a 0 cur = [rev cur ++ a].
Proof.
  revert cur; induction a as [|x a IH]; intros cur Hin; simpl.
  - now rewrite app_nil_r.
  - destruct (N.eqb_spec c x) as [->|Hne]; [exfalso; apply Hin; now left|].
    simpl. rewrite IH by (intro; apply Hin; now right).
    simpl. now rewrite <- app_assoc.
Qed.

Lemma split_char_app a b :
  ~ In c a -> split (a ++ c :: b) [c] = a :: split b [c].
Proof. intros; unfold split; now rewrite split_from_char_app. Qed.

Lemma split_char_none a : ~ In c a -> split a [c] = [a].
Proof. intros; unfold split; now rewrite split_from_char_none. Qed.

(** No piece of a split on one code unit contains that code unit. *)
Lemma split_from_char_pieces s cur :
  ~ In c cur -> Forall (fun p => ~ In c p) (split_from [c] s 0 cur).
Proof.
  revert cur; induction s as [|x s IH]; intros cur Hcur; simpl.
  - constructor; [|constructor]. now rewrite <- in_rev.
  - destruct (N.eqb_spec c x) as [->|Hne]; simpl.
    + constructor; [now rewrite <- in_rev|]. apply IH. intros [].
    + apply IH. intros [H|H]; [now apply Hne|now apply Hcur].
Qed.

Lemma split_char_pieces s : Forall (fun p => ~ In c p) (split s [c]).
Proof. apply split_from_char_pieces. intros []. Qed.

(** The pieces are one more than the occurrences of the separator. *)
Lemma split_from_char_length s cur :
  length (split_from [c] s 0 cur) = S (count_occ N.eq_dec s c).
Proof.
  revert cur; induction s as [|x s IH]; intros cur; simpl; [reflexivity|].
  destruct (N.eqb_spec c x) as [->|Hne]; simpl.
  - rewrite IH. now destruct (N.eq_dec x x).
  - rewrite IH. destruct (N.eq_dec x c); [now subst|reflexivity].
Qed.

End SplitOnCodeUnit.

(** The first piece is a prefix of the string. *)
Lemma split_from_hd_prefix sep s cur :
  sep <> [] ->
  exists rest, rev cur ++ s = hd [] (split_from sep s 0 cur) ++ rest.
Proof.
  intros Hsep.
  revert cur; induction s as [|x s IH]; intros cur; simpl.
  - exists []. reflexivity.
  - destruct (starts_with sep (x :: s)); simpl.
    + now exists (x :: s).
    + destruct (IH (x :: cur)) as [rest Hrest]. exists rest.
      rewrite <- Hrest. simpl. now rewrite <- app_assoc.
Qed.

Lemma split_hd_prefix s c sep :
  exists rest, s = hd [] (split s (c :: sep)) ++ rest.
Proof.
  destruct (split_from_hd_prefix (c :: sep) s []) as [rest H]; [discriminate|].
  now exists rest.
Qed.

(** ** The sections of deriveUlaFromIpv4 return normally *)

Lemma deriveUlaFromIpv4_sections ipv4 ula :
  deriveUlaFromIpv4 ipv4 ula
  = (octets <- ipv4_octets ipv4 ;;
     hextets <- ula_hextets ula ;;
     let net := join (firstn 3 (push_zeros 3 hextets)) (str ":") ++ str ":"
                  ++ subnet_id_hex (index octets 2) (index octets 3)
                  ++ str "::" in
     Normal {| ipv6subnet := net ++ str "/64";
               ipv6gateway := net ++ str "1" |}).
Proof.
  unfold deriveUlaFromIpv4, ipv4_octets, ula_hextets.
  destruct (index (split ipv4 (str "/")) 0); [|reflexivity].
  destruct (index (split ula (str "/")) 0) as [ulaAddress|]; [|reflexivity].
  cbn [call_split bind].
  destruct (index (split ulaAddress (str "::")) 0); reflexivity.
Qed.

Lemma ipv4_octets_normal ipv4 :
  ipv4_octets ipv4
  = Normal (map Number (split (hd [] (split ipv4 (str "/"))) (str "."))).
Proof.
  unfold ipv4_octets. change (str "/") with [47%N].
  now rewrite split_index_0.
Qed.

Lemma ula_hextets_normal ula :
  exists hextets,
    ula_hextets ula = Normal hextets
    /\ Forall (fun h => ~ In COLON h) hextets.
Proof.
  unfold ula_hextets.
  change (str "/") with [47%N]. rewrite split_index_0.
  cbn [call_split bind].
  change (str "::") with [58%N; 58%N]. rewrite split_index_0.
  cbn [call_split bind].
  eexists; split; [reflexivity|].
  match goal with |- context [if ?b then _ else _] => destruct b end.
  - constructor.
  - apply split_char_pieces.
Qed.

(** Three rounds of the padding loop always suffice: on exit the loop
    condition [hextets.length < 3] is false. *)
Lemma push_zeros_exit hextets : (3 <= length (push_zeros 3 hextets))%nat.
Proof.
  destruct hextets as [|a [|b [|c r]]]; simpl; lia.
Qed.

Lemma push_zeros_pad hextets :
  push_zeros 3 hextets
  = hextets ++ repeat (str "0") (3 - length hextets).
Proof.
  destruct hextets as [|a [|b [|c r]]]; simpl; try reflexivity.
  now rewrite app_nil_r.
Qed.

Lemma push_zeros_first3 hextets :
  Forall (fun h => ~ In COLON h) hextets ->
  exists h0 h1 h2,
    firstn 3 (push_zeros 3 hextets) = [h0; h1; h2]
    /\ ~ In COLON h0 /\ ~ In COLON h1 /\ ~ In COLON h2.
Proof.
  assert (Z0 : ~ In COLON (str "0")) by (simpl; intros [H|[]]; discriminate).
  intros H. rewrite push_zeros_pad.
  destruct hextets as [|a [|b [|c r]]]; simpl;
    repeat match goal with
           | H : Forall _ (_ :: _) |- _ => inversion H; subst; clear H
           end;
    do 3 eexists; (split; [reflexivity|]); auto.
Qed.

(** ** The subnet identifier *)

Lemma hex_digit_not_colon d : hex_digit d <> COLON.
Proof.
  unfold hex_digit, COLON. destruct (N.ltb_spec d 10); lia.
Qed.

Lemma to_radix16_no_colon fuel n acc :
  ~ In COLON acc -> ~ In COLON (to_radix16 fuel n acc).
Proof.
  revert n acc; induction fuel as [|fuel IH]; intros n acc Hacc; simpl; auto.
  assert (H' : ~ In COLON (hex_digit (n mod 16)%N :: acc)).
  { intros [H|H]; [now apply hex_digit_not_colon in H|auto]. }
  destruct (n / 16 =? 0)%N; auto.
Qed.

Lemma toString16_no_colon z : ~ In COLON (toString16 z).
Proof.
  unfold toString16, hex_of_N.
  destruct (z <? 0).
  - intros [H|H]; [discriminate|].
    revert H. apply to_radix16_no_colon. intros [].
  - apply to_radix16_no_colon. intros [].
Qed.

Lemma fill_to_zero n cur :
  (forall c, In c cur -> c = 48%N) ->
  forall c, In c (fill_to n (str "0") cur) -> c = 48%N.
Proof.
  revert cur; induction n as [|n IH]; intros cur Hcur c; simpl; [intros []|].
  destruct cur as [|x r].
  - intros [H|H]; [now subst|]. revert H. apply IH. intros ? [].
  - intros [H|H]; [subst; apply Hcur; now left|].
    revert H. apply IH. intros; apply Hcur; now right.
Qed.

Lemma padStart_zero_no_colon s n :
  ~ In COLON s -> ~ In COLON (padStart s n (str "0")).
Proof.
  intros Hs. unfold padStart. destruct (n <=? length s)%nat; auto.
  intros H. apply in_app_or in H. destruct H as [H|H]; auto.
  apply fill_to_zero in H; [discriminate|].
  simpl. intros c [Hc|[]]; now subst.
Qed.

Lemma subnet_id_hex_no_colon octet3 octet4 :
  ~ In COLON (subnet_id_hex octet3 octet4).
Proof. apply padStart_zero_no_colon, toString16_no_colon. Qed.

(** ** The shape of the result *)

(** Every call returns normally; both strings start with three hextets
    taken from the padded ULA hextets and the subnet identifier. *)
Lemma deriveUlaFromIpv4_shape ipv4 ula :
  exists octets hextets h0 h1 h2,
    ipv4_octets ipv4 = Normal octets
    /\ ula_hextets ula = Normal hextets
    /\ firstn 3 (push_zeros 3 hextets) = [h0; h1; h2]
    /\ ~ In COLON h0 /\ ~ In COLON h1 /\ ~ In COLON h2
    /\ let id := subnet_id_hex (index octets 2) (index octets 3) in
       let net := h0 ++ str ":" ++ h1 ++ str ":" ++ h2 ++ str ":" ++ id in
       deriveUlaFromIpv4 ipv4 ula
       = Normal {| ipv6subnet := net ++ str "::/64";
                   ipv6gateway := net ++ str "::1" |}.
Proof.
  destruct (ula_hextets_normal ula) as (hextets & Hh & Hc).
  destruct (push_zeros_first3 hextets Hc) as (h0 & h1 & h2 & Hf & H0 & H1 & H2).
  exists (map Number (split (hd [] (split ipv4 (str "/"))) (str "."))),
    hextets, h0, h1, h2.
  split; [apply ipv4_octets_normal|].
  repeat (split; [assumption|]).
  rewrite deriveUlaFromIpv4_sections, ipv4_octets_normal, Hh.
  cbn [bind]. rewrite Hf.
  cbn [join]. f_equal.
  f_equal; repeat rewrite <- app_assoc; reflexivity.
Qed.

Lemma deriveUlaFromIpv4_total ipv4 ula :
  exists r, deriveUlaFromIpv4 ipv4 ula = Normal r.
Proof.
  destruct (deriveUlaFromIpv4_shape ipv4 ula)
    as (? & ? & ? & ? & ? & _ & _ & _ & _ & _ & _ & H).
  eexists; exact H.
Qed.

(** The colon-separated groups of the two results. *)
Lemma split_colon_groups h0 h1 h2 id tail :
  ~ In COLON h0 -> ~ In COLON h1 -> ~ In COLON h2 -> ~ In COLON id ->
  ~ In COLON tail ->
  split ((h0 ++ str ":" ++ h1 ++ str ":" ++ h2 ++ str ":" ++ id)
           ++ str "::" ++ tail) (str ":")
  = [h0; h1; h2; id; []; tail].
Proof.
  intros H0 H1 H2 Hid Ht. change (str ":") with [COLON].
  change (str "::") with [COLON; COLON].
  repeat rewrite <- app_assoc. cbn [app].
  rewrite (split_char_app COLON h0) by assumption.
  rewrite (split_char_app COLON h1) by assumption.
  rewrite (split_char_app COLON h2) by assumption.
  rewrite (split_char_app COLON id) by assumption.
  change (COLON :: tail) with ([] ++ COLON :: tail).
  rewrite (split_char_app COLON [] tail) by (intros []).
  now rewrite split_char_none.
Qed.

(** ** Hexadecimal rendering *)

Local Open Scope N_scope.

(** More fuel than digits changes nothing. *)
Lemma to_radix16_fuel f f' n acc :
  n < 16 ^ N.of_nat (S f) -> n < 16 ^ N.of_nat (S f') ->
  to_radix16 (S f) n acc = to_radix16 (S f') n acc.
Proof.
  revert f' n acc; induction f as [|g IH]; intros f' n acc Hf Hf'.
  - simpl. rewrite (N.div_small n 16) by exact Hf. reflexivity.
  - cbn [to_radix16]. destruct (N.eqb_spec (n / 16) 0) as [|Hnz]; [reflexivity|].
    assert (H16 : forall k, n < 16 ^ N.of_nat (S k) -> n / 16 < 16 ^ N.of_nat k).
    { intros k Hk. apply N.Div0.div_lt_upper_bound.
      rewrite Nat2N.inj_succ, N.pow_succ_r' in Hk. exact Hk. }
    destruct f' as [|g'].
    + exfalso. apply Hnz. apply N.div_small. exact Hf'.
    + apply IH; apply H16; assumption.
Qed.

Lemma hex_of_N_fuel n : n < 16 ^ N.of_nat (S (N.to_nat (N.log2 n))).
Proof.
  rewrite Nat2N.inj_succ, N2Nat.id.
  destruct (N.eq_dec n 0) as [->|Hn]; [reflexivity|].
  apply N.lt_le_trans with (2 ^ N.succ (N.log2 n)).
  - apply N.log2_spec. lia.
  - apply N.pow_le_mono_l. lia.
Qed.

(** The digits written by [hex_of_N] read back as the number: the fuel of
    [to_radix16] is never exhausted before the last digit. *)
Lemma digit_value_hex_digit d :
  d < 16 -> digit_value 16 (hex_digit d) = Some d.
Proof.
  intros Hd. unfold digit_value, hex_digit.
  destruct (N.ltb_spec d 10).
  - replace ((48 <=? 48 + d) && (48 + d <=? 57)) with true
      by (symmetry; apply andb_true_iff; split; apply N.leb_le; lia).
    replace (48 + d - 48) with d by lia.
    now apply N.ltb_lt in Hd as ->.
  - replace ((48 <=? 87 + d) && (87 + d <=? 57)) with false
      by (symmetry; apply andb_false_iff; right; apply N.leb_gt; lia).
    replace ((97 <=? 87 + d) && (87 + d <=? 122)) with true
      by (symmetry; apply andb_true_iff; split; apply N.leb_le; lia).
    replace (87 + d - 87) with d by lia.
    now apply N.ltb_lt in Hd as ->.
Qed.

Lemma digits_value_app radix acc a b :
  digits_value radix acc (a ++ b)
  = match digits_value radix acc a with
    | Some v => digits_value radix v b
    | None => None
    end.
Proof.
  revert acc; induction a as [|c a IH]; intros acc; simpl; [reflexivity|].
  destruct (digit_value radix c); [apply IH|reflexivity].
Qed.

Lemma to_radix16_S f n acc :
  to_radix16 (S f) n acc
  = if n / 16 =? 0 then hex_digit (n mod 16) :: acc
    else to_radix16 f (n / 16) (hex_digit (n mod 16) :: acc).
Proof. reflexivity. Qed.

Lemma to_radix16_value f n acc :
  n < 16 ^ N.of_nat (S f) ->
  exists ds,
    to_radix16 (S f) n acc = ds ++ acc
    /\ forall a, digits_value 16 a ds
                 = Some (a * 16 ^ N.of_nat (length ds) + n).
Proof.
  revert n acc; induction f as [|g IH]; intros n acc Hn;
    rewrite to_radix16_S; destruct (N.eqb_spec (n / 16) 0) as [Hz|Hnz].
  1, 2, 3: exists [hex_digit (n mod 16)]; split; [reflexivity|]; intros a;
    cbn [digits_value length];
    rewrite digit_value_hex_digit by (apply N.mod_lt; lia);
    f_equal; change (16 ^ N.of_nat 1) with 16 in *;
    pose proof (N.div_mod n 16 ltac:(lia)).
  - lia.
  - exfalso; apply Hnz, N.div_small; exact Hn.
  - lia.
  - destruct (IH (n / 16) (hex_digit (n mod 16) :: acc)) as (ds & Hds & Hv).
    { apply N.Div0.div_lt_upper_bound.
      rewrite Nat2N.inj_succ, N.pow_succ_r' in Hn. exact Hn. }
    exists (ds ++ [hex_digit (n mod 16)]). split.
    + rewrite Hds, <- app_assoc. reflexivity.
    + intros a. rewrite digits_value_app, Hv. cbn [digits_value].
      rewrite digit_value_hex_digit by (apply N.mod_lt; lia).
      f_equal. rewrite length_app, Nat2N.inj_add.
      change (N.of_nat (length [hex_digit (n mod 16)])) with 1.
      rewrite N.pow_add_r, N.pow_1_r.
      pose proof (N.div_mod n 16 ltac:(lia)). lia.
Qed.

Lemma hex_of_N_value n : digits_value 16 0 (hex_of_N n) = Some n.
Proof.
  unfold hex_of_N.
  destruct (to_radix16_value _ n [] (hex_of_N_fuel n)) as (ds & Hds & Hv).
  rewrite Hds, app_nil_r, Hv. reflexivity.
Qed.

(** A value below 2^16, padded to four digits. *)
Lemma padStart_hex_of_N n :
  n < 65536 -> padStart (hex_of_N n) 4 (str "0") = hex4 n.
Proof.
  intros Hn. unfold hex_of_N.
  rewrite (to_radix16_fuel _ 3) by (apply hex_of_N_fuel || exact Hn).
  unfold hex4. cbn [to_radix16].
  destruct (N.eqb_spec (n / 16) 0) as [->|_]; [reflexivity|].
  destruct (N.eqb_spec (n / 16 / 16) 0) as [->|_]; [reflexivity|].
  destruct (N.eqb_spec (n / 16 / 16 / 16) 0) as [->|_]; [reflexivity|].
  assert (H : n / 16 / 16 / 16 < 16).
  { repeat apply N.Div0.div_lt_upper_bound. exact Hn. }
  rewrite (N.mod_small _ _ H).
  now destruct (_ =? 0).
Qed.

Lemma hex4_is_hex4 n : is_hex4 (hex4 n) = true.
Proof.
  assert (H : forall d, d < 16 -> is_lower_hex (hex_digit d) = true).
  { intros d Hd. unfold is_lower_hex, hex_digit.
    destruct (N.ltb_spec d 10).
    - apply orb_true_iff; left; apply andb_true_iff; split; apply N.leb_le; lia.
    - apply orb_true_iff; right; apply andb_true_iff; split; apply N.leb_le; lia. }
  unfold is_hex4, hex4. cbn [length Nat.eqb forallb andb].
  rewrite !H by (apply N.mod_lt; lia). reflexivity.
Qed.

Lemma hex_digit_inj d e : d < 16 -> e < 16 -> hex_digit d = hex_digit e -> d = e.
Proof.
  unfold hex_digit. intros Hd He.
  destruct (N.ltb_spec d 10), (N.ltb_spec e 10); lia.
Qed.

Lemma hex4_inj n m : n < 65536 -> m < 65536 -> hex4 n = hex4 m -> n = m.
Proof.
  intros Hn Hm H. unfold hex4 in H. injection H as H3 H2 H1 H0.
  apply hex_digit_inj in H0, H1, H2, H3; try (apply N.mod_lt; lia).
  assert (Hn3 : n / 16 / 16 / 16 < 16)
    by (repeat apply N.Div0.div_lt_upper_bound; exact Hn).
  assert (Hm3 : m / 16 / 16 / 16 < 16)
    by (repeat apply N.Div0.div_lt_upper_bound; exact Hm).
  rewrite (N.mod_small _ _ Hn3), (N.mod_small _ _ Hm3) in H3.
  rewrite (N.div_mod n 16), (N.div_mod m 16) by lia.
  rewrite (N.div_mod (n / 16) 16), (N.div_mod (m / 16) 16) by lia.
  rewrite (N.div_mod (n / 16 / 16) 16), (N.div_mod (m / 16 / 16) 16) by lia.
  now rewrite H0, H1, H2, H3.
Qed.

Lemma is_lower_hex_digit c :
  is_lower_hex c = true -> exists d, d < 16 /\ c = hex_digit d.
Proof.
  unfold is_lower_hex. intros H.
  apply orb_true_iff in H. destruct H as [H|H];
    apply andb_true_iff in H; destruct H as [H1 H2];
    apply N.leb_le in H1, H2.
  - exists (c - 48). split; [lia|]. unfold hex_digit.
    destruct (N.ltb_spec (c - 48) 10); lia.
  - exists (c - 87). split; [lia|]. unfold hex_digit.
    destruct (N.ltb_spec (c - 87) 10); lia.
Qed.

(** Every four-digit lowercase hextet is written for one value below 2^16. *)
Lemma hex4_surj h :
  is_hex4 h = true -> exists n, n < 65536 /\ hex4 n = h.
Proof.
  unfold is_hex4. intros H. apply andb_true_iff in H. destruct H as [Hl Hd].
  apply Nat.eqb_eq in Hl.
  destruct h as [|c3 [|c2 [|c1 [|c0 [|]]]]]; try discriminate.
  cbn [forallb] in Hd.
  apply andb_true_iff in Hd; destruct Hd as [H3 Hd].
  apply andb_true_iff in Hd; destruct Hd as [H2 Hd].
  apply andb_true_iff in Hd; destruct Hd as [H1 Hd].
  apply andb_true_iff in Hd; destruct Hd as [H0 _].
  apply is_lower_hex_digit in H3; destruct H3 as (d3 & H3 & ->).
  apply is_lower_hex_digit in H2; destruct H2 as (d2 & H2 & ->).
  apply is_lower_hex_digit in H1; destruct H1 as (d1 & H1 & ->).
  apply is_lower_hex_digit in H0; destruct H0 as (d0 & H0 & ->).
  exists (((d3 * 16 + d2) * 16 + d1) * 16 + d0). split; [lia|].
  unfold hex4.
  assert (E : forall a d, d < 16 -> (a * 16 + d) / 16 = a /\ (a * 16 + d) mod 16 = d).
  { intros a d Hlt. split.
    - rewrite N.div_add_l by lia. rewrite N.div_small by assumption. lia.
    - rewrite N.add_comm, N.Div0.mod_add. now apply N.mod_small. }
  destruct (E ((d3 * 16 + d2) * 16 + d1) d0) as [-> ->]; [assumption|].
  destruct (E (d3 * 16 + d2) d1) as [-> ->]; [assumption|].
  destruct (E d3 d2) as [-> ->]; [assumption|].
  rewrite (N.mod_small d3 16) by assumption. reflexivity.
Qed.

(** ** The 32-bit arithmetic on octets *)

Local Open Scope Z_scope.

Lemma integer_value_truncate x n : integer_value x = Some n -> truncate x = n.
Proof.
  destruct x as [s|s| |s m e]; simpl; try congruence.
  destruct ((0 <=? e) || (Zpos m mod 2 ^ (- e) =? 0)); congruence.
Qed.

Lemma wrap32_small z : - 2 ^ 31 <= z < 2 ^ 31 -> wrap32 z = z.
Proof.
  intros Hz. unfold wrap32.
  destruct (Z.leb_spec (2 ^ 31) (z mod 2 ^ 32)) as [H|H];
    pose proof (Z.mod_pos_bound z (2 ^ 32) ltac:(lia)) as Hb;
    pose proof (Z.div_mod z (2 ^ 32) ltac:(lia)) as Hd;
    change (2 ^ 32) with 4294967296 in *;
    change (2 ^ 31) with 2147483648 in *; lia.
Qed.

Lemma lor_low_byte a b : 0 <= b < 256 -> Z.lor (Z.shiftl a 8) b = a * 256 + b.
Proof.
  intros Hb.
  assert (Hland : Z.land (Z.shiftl a 8) b = 0).
  { apply Z.bits_inj'. intros i Hi.
    rewrite Z.land_spec, Z.bits_0.
    destruct (Z.ltb_spec i 8) as [Hlt|Hge].
    - now rewrite Z.shiftl_spec_low.
    - destruct (Z.eq_dec b 0) as [->|Hnz].
      + now rewrite Z.bits_0, andb_false_r.
      + rewrite (Z.bits_above_log2 b i), andb_false_r; [reflexivity|lia|].
        apply Z.lt_le_trans with 8; [|assumption].
        apply Z.log2_lt_pow2; [lia|]. change (2 ^ 8) with 256. lia. }
  rewrite <- Z.lxor_lor, <- Z.add_nocarry_lxor by assumption.
  now rewrite Z.shiftl_mul_pow2 by lia.
Qed.

(** [(octet3 << 8) | octet4] on octets is [256 * octet3 + octet4]. *)
Lemma or32_shl32_octets n3 n4 :
  0 <= n3 <= 255 -> 0 <= n4 <= 255 ->
  or32 (shl32 (wrap32 n3) 8) (wrap32 n4) = 256 * n3 + n4.
Proof.
  intros H3 H4. unfold or32, shl32.
  rewrite (wrap32_small n3), (wrap32_small n4)
    by (change (2 ^ 31) with 2147483648; lia).
  change (8 mod 32) with 8.
  rewrite (wrap32_small (Z.shiftl n3 8))
    by (rewrite Z.shiftl_mul_pow2 by lia;
        change (2 ^ 31) with 2147483648; change (2 ^ 8) with 256; lia).
  rewrite lor_low_byte by lia.
  rewrite wrap32_small by (change (2 ^ 31) with 2147483648; lia). lia.
Qed.

(** The subnet identifier of two octets: their four hexadecimal digits. *)
Lemma subnet_id_hex_octets v3 v4 n3 n4 :
  valid_octet v3 n3 -> valid_octet v4 n4 ->
  subnet_id_hex v3 v4 = hex4 (Z.to_N (256 * n3 + n4)).
Proof.
  intros [E3 R3] [E4 R4]. unfold subnet_id_hex, ToInt32.
  destruct v3 as [x3|]; [|discriminate]. destruct v4 as [x4|]; [|discriminate].
  simpl in E3, E4. cbn [ToNumber].
  rewrite (integer_value_truncate _ _ E3), (integer_value_truncate _ _ E4).
  rewrite or32_shl32_octets by assumption.
  unfold toString16.
  destruct (Z.ltb_spec (256 * n3 + n4) 0) as [H|H]; [lia|].
  rewrite Zabs2N.abs_N_nonneg by lia.
  apply padStart_hex_of_N. lia.
Qed.

(** Absent or non-numeric octets count as 0. *)
Lemma subnet_id_hex_nan v3 v4 :
  ToNumber v3 = S754_nan -> ToNumber v4 = S754_nan ->
  subnet_id_hex v3 v4 = str "0000".
Proof. unfold subnet_id_hex. now intros -> ->. Qed.

(** ** IPv4 texts *)

Lemma octet_text_check :
  forallb octet_text_ok (map Z.of_nat (seq 0 256)) = true.
Proof. vm_compute. reflexivity. Qed.

Lemma octet_text_spec n :
  0 <= n <= 255 ->
  valid_octet (Some (Number (octet_text n))) n
  /\ ~ In DOT (octet_text n) /\ ~ In SLASH (octet_text n).
Proof.
  intros Hn.
  assert (Hok : octet_text_ok n = true).
  { pose proof octet_text_check as H. rewrite forallb_forall in H. apply H.
    rewrite <- (Z2Nat.id n) by lia. apply in_map, in_seq. lia. }
  unfold octet_text_ok in Hok. apply andb_true_iff in Hok.
  destruct Hok as [Hv Hc]. rewrite forallb_forall in Hc.
  split; [|split].
  - split; [|assumption]. cbn [octet_value].
    destruct (integer_value (Number (octet_text n))) as [m|]; [|discriminate].
    apply Z.eqb_eq in Hv. now subst.
  - intros H. apply Hc in H. now rewrite N.eqb_refl in H.
  - intros H. apply Hc in H. rewrite N.eqb_refl, andb_false_r in H.
    discriminate.
Qed.

Lemma ipv4_octets_dotted a b c d :
  ~ In SLASH (dotted a b c d) ->
  ~ In DOT a -> ~ In DOT b -> ~ In DOT c -> ~ In DOT d ->
  ipv4_octets (dotted a b c d)
  = Normal [Number a; Number b; Number c; Number d].
Proof.
  intros Hs Ha Hb Hc Hd. rewrite ipv4_octets_normal.
  change (str "/") with [SLASH]. rewrite split_char_none by assumption.
  cbn [hd]. unfold dotted. change (str ".") with [DOT]. cbn [app].
  rewrite !split_char_app, split_char_none by assumption. reflexivity.
Qed.

(** ** ULA prefix texts *)

Lemma split_from_hd_cur sep s cur :
  hd [] (split_from sep s 0 cur) = rev cur ++ hd [] (split_from sep s 0 []).
Proof.
  revert cur; induction s as [|x s IH]; intros cur; cbn [split_from].
  - cbn. now rewrite app_nil_r.
  - destruct (starts_with sep (x :: s)).
    + cbn. now rewrite app_nil_r.
    + rewrite (IH (x :: cur)), (IH [x]). cbn. now rewrite <- app_assoc.
Qed.

(** Text without the first code unit of the separator is passed over. *)
Lemma split_from_pass c sep h s cur :
  ~ In c h ->
  split_from (c :: sep) (h ++ s) 0 cur
  = split_from (c :: sep) s 0 (rev h ++ cur).
Proof.
  revert cur; induction h as [|x h IH]; intros cur Hh; [reflexivity|].
  cbn [app split_from starts_with].
  destruct (N.eqb_spec c x) as [->|_]; [exfalso; apply Hh; now left|].
  cbn [andb]. rewrite IH by (intro; apply Hh; now right).
  cbn [rev]. now rewrite <- app_assoc.
Qed.

Lemma split_hd_app c p s :
  ~ In c p -> hd [] (split (p ++ s) [c]) = p ++ hd [] (split s [c]).
Proof.
  intros Hp. unfold split.
  now rewrite split_from_pass, split_from_hd_cur, app_nil_r, rev_involutive.
Qed.

Lemma join_cons h t sep :
  join (h :: t) sep
  = h ++ match t with [] => [] | _ :: _ => sep ++ join t sep end.
Proof. destruct t; cbn [join]; [now rewrite app_nil_r|reflexivity]. Qed.

Lemma in_join c hs sep :
  In c (join hs sep) -> In c sep \/ exists h, In h hs /\ In c h.
Proof.
  induction hs as [|h t IH]; [intros []|].
  rewrite join_cons. intros H. apply in_app_or in H. destruct H as [H|H].
  - right. exists h. split; [now left|assumption].
  - destruct t as [|h' t']; [destruct H|].
    apply in_app_or in H. destruct H as [H|H]; [now left|].
    destruct (IH H) as [Hs|(h0 & Hin & Hc)]; [now left|].
    right. exists h0. split; [now right|assumption].
Qed.

Lemma split_from_step sep x s cur :
  starts_with sep (x :: s) = false ->
  split_from sep (x :: s) 0 cur = split_from sep s 0 (x :: cur).
Proof. intros H. cbn [split_from]. now rewrite H. Qed.

(** The text before the first "::" is the joined leading hextets. *)
Lemma split_double_colon_hd hs rest cur :
  hs <> [] -> Forall hextet_text hs ->
  hd [] (split_from [COLON; COLON]
           (join hs [COLON] ++ COLON :: COLON :: rest) 0 cur)
  = rev cur ++ join hs [COLON].
Proof.
  intros Hne Hall. revert cur.
  induction Hall as [|h t (Hh & Hc & _) Ht IH]; [contradiction|]; intros cur.
  rewrite join_cons, <- app_assoc, split_from_pass by assumption.
  destruct t as [|h' t'].
  - cbn. now rewrite rev_app_distr, rev_involutive, app_nil_r.
  - specialize (IH ltac:(discriminate)).
    inversion Ht as [|? ? (Hh' & Hc' & _) _]; subst.
    rewrite <- app_assoc. cbn [app].
    rewrite split_from_step, IH.
    + cbn [rev]. rewrite rev_app_distr, rev_involutive.
      now repeat rewrite <- app_assoc.
    + rewrite join_cons. destruct h' as [|x h'']; [contradiction|].
      cbn [app starts_with]. rewrite N.eqb_refl.
      destruct (N.eqb_spec COLON x) as [<-|_]; [|reflexivity].
      exfalso; apply Hc'; now left.
Qed.

Lemma split_join_colon hs :
  hs <> [] -> Forall (fun h => ~ In COLON h) hs ->
  split (join hs [COLON]) [COLON] = hs.
Proof.
  intros Hne Hall.
  induction Hall as [|h t Hc Ht IH]; [contradiction|].
  rewrite join_cons. destruct t as [|h' t'].
  - rewrite app_nil_r. now apply split_char_none.
  - cbn [app]. rewrite split_char_app by assumption.
    now rewrite IH by discriminate.
Qed.

(** The leading hextets of a ULA prefix text are what section 2 finds. *)
Lemma ula_hextets_text hs rest :
  hs <> [] -> Forall hextet_text hs ->
  ula_hextets (ula_text hs rest) = Normal hs.
Proof.
  intros Hne Hall. unfold ula_hextets, ula_text.
  change (str "/") with [SLASH]. change (str "::") with [COLON; COLON].
  change (str ":") with [COLON].
  rewrite split_index_0, app_assoc, split_hd_app.
  2:{ intros H. apply in_app_or in H. destruct H as [H|H].
      - apply in_join in H. destruct H as [[H|[]]|(h & Hin & Hc)];
          [discriminate|].
        rewrite Forall_forall in Hall. now apply (Hall h Hin). 
      - destruct H as [H|[H|[]]]; discriminate. }
  cbn [call_split bind]. rewrite split_index_0. unfold split at 1.
  rewrite <- app_assoc. cbn [app].
  rewrite split_double_colon_hd by assumption.
  cbn [rev app call_split bind].
  rewrite split_join_colon.
  2: assumption.
  2:{ eapply Forall_impl; [|exact Hall]. now intros h (_ & Hc & _). }
  destruct hs as [|h [|h' t]]; [contradiction| |reflexivity].
  inversion Hall as [|? ? (Hh & _) _]; subst.
  destruct h; [contradiction|reflexivity].
Qed.

(** ** Groups of the results *)

Lemma slash64_no_colon : ~ In COLON (str "/64").
Proof. cbn. intros [H|[H|[H|[]]]]; discriminate. Qed.

Lemma one_no_colon : ~ In COLON (str "1").
Proof. cbn. intros [H|[]]; discriminate. Qed.

Create HintDb colon.
#[local] Hint Resolve subnet_id_hex_no_colon slash64_no_colon one_no_colon
  : colon.

(** The fourth group of both results is the subnet identifier, the first
    three are the first three padded ULA hextets. *)
Lemma deriveUlaFromIpv4_groups ipv4 ula octets hextets r :
  ipv4_octets ipv4 = Normal octets ->
  ula_hextets ula = Normal hextets ->
  deriveUlaFromIpv4 ipv4 ula = Normal r ->
  let id := subnet_id_hex (index octets 2) (index octets 3) in
  split (ipv6subnet r) (str ":")
  = firstn 3 (push_zeros 3 hextets) ++ [id; []; str "/64"]
  /\ split (ipv6gateway r) (str ":")
     = firstn 3 (push_zeros 3 hextets) ++ [id; []; str "1"].
Proof.
  intros Ho Hh Hr.
  destruct (deriveUlaFromIpv4_shape ipv4 ula)
    as (octets' & hextets' & h0 & h1 & h2 & Ho' & Hh' & Hf & H0 & H1 & H2 & E).
  rewrite Ho in Ho'. injection Ho' as <-.
  rewrite Hh in Hh'. injection Hh' as <-.
  cbv zeta in E. rewrite Hr in E. injection E as ->.
  cbv zeta. cbn [ipv6subnet ipv6gateway]. rewrite Hf.
  split.
  - apply (split_colon_groups h0 h1 h2 _ (str "/64")); auto with colon.
  - apply (split_colon_groups h0 h1 h2 _ (str "1")); auto with colon.
Qed.

Lemma hextet_3_subnet_id ipv4 ula octets r :
  ipv4_octets ipv4 = Normal octets ->
  deriveUlaFromIpv4 ipv4 ula = Normal r ->
  hextet 3 (ipv6subnet r)
  = Some (subnet_id_hex (index octets 2) (index octets 3))
  /\ hextet 3 (ipv6gateway r)
     = Some (subnet_id_hex (index octets 2) (index octets 3)).
Proof.
  intros Ho Hr.
  destruct (ula_hextets_normal ula) as (hextets & Hh & Hc).
  destruct (deriveUlaFromIpv4_groups _ _ _ _ _ Ho Hh Hr) as [Es Eg].
  destruct (push_zeros_first3 hextets Hc) as (h0 & h1 & h2 & Hf & _).
  unfold hextet. rewrite Es, Eg, Hf. split; reflexivity.
Qed.

(** An address part has no more dot-separated components than the whole
    input. *)
Lemma ipv4Address_components ipv4 :
  (length (split (hd [] (split ipv4 (str "/"))) (str "."))
   <= length (split ipv4 (str ".")))%nat.
Proof.
  change (str "/") with [SLASH]. change (str ".") with [DOT].
  destruct (split_hd_prefix ipv4 SLASH []) as [rest E].
  unfold split at 1 3. rewrite !split_from_char_length.
  rewrite E at 2. rewrite count_occ_app.
  apply le_n_S, Nat.le_add_r.
Qed.

Lemma index_none {A} (a : list A) i : (length a <= i)%nat -> index a i = None.
Proof. apply nth_error_None. Qed.

(** ** The result in terms of the two sections *)

Lemma deriveUlaFromIpv4_eq ipv4 ula octets hextets :
  ipv4_octets ipv4 = Normal octets ->
  ula_hextets ula = Normal hextets ->
  deriveUlaFromIpv4 ipv4 ula
  = let net := join (firstn 3 (push_zeros 3 hextets)) (str ":") ++ str ":"
                 ++ subnet_id_hex (index octets 2) (index octets 3)
                 ++ str "::" in
    Normal {| ipv6subnet := net ++ str "/64"; ipv6gateway := net ++ str "1" |}.
Proof.
  intros Ho Hh. now rewrite deriveUlaFromIpv4_sections, Ho, Hh.
Qed.

Lemma is_hextet_text_spec h : is_hextet_text h = true -> hextet_text h.
Proof.
  unfold is_hextet_text, hextet_text. destruct h as [|x h]; [discriminate|].
  intros H. rewrite forallb_forall in H.
  split; [discriminate|].
  split; intros Hin; apply H in Hin.
  - now rewrite N.eqb_refl in Hin.
  - rewrite N.eqb_refl, andb_false_r in Hin. discriminate.
Qed.

Lemma are_hextet_texts hs :
  forallb is_hextet_text hs = true -> Forall hextet_text hs.
Proof.
  rewrite forallb_forall, Forall_forall.
  intros H h Hin. now apply is_hextet_text_spec, H.
Qed.

(** * The claims *)

(** C1. [deriveUlaFromIpv4("192.168.20.0/24", "fd52:425:78eb::/48")]
    returns exactly [{ ipv6subnet: "fd52:425:78eb:1400::/64",
    ipv6gateway: "fd52:425:78eb:1400::1" }]. *)
Theorem scenario_full_prefix :
  deriveUlaFromIpv4 (str "192.168.20.0/24") (str "fd52:425:78eb::/48")
  = Normal {| ipv6subnet := str "fd52:425:78eb:1400::/64";
              ipv6gateway := str "fd52:425:78eb:1400::1" |}.
Proof. vm_compute. reflexivity. Qed.

(** C2. On ["172.16.0.1/16"] and ["::/48"] the function returns the subnet
    identifier of octets (0, 1) padded to four digits, "0001": the result
    is [{ ipv6subnet: "0:0:0:0001::/64", ipv6gateway: "0:0:0:0001::1" }],
    not the "0:0:0:1::/64" and "0:0:0:1::1" of the function's own
    documentation. *)
Theorem scenario_minimal_prefix :
  deriveUlaFromIpv4 (str "172.16.0.1/16") (str "::/48")
  = Normal {| ipv6subnet := str "0:0:0:0001::/64";
              ipv6gateway := str "0:0:0:0001::1" |}
  /\ deriveUlaFromIpv4 (str "172.16.0.1/16") (str "::/48")
     <> Normal {| ipv6subnet := str "0:0:0:1::/64";
                  ipv6gateway := str "0:0:0:1::1" |}.
Proof. split; [vm_compute; reflexivity|vm_compute; discriminate]. Qed.

(** C3, as stated, fails: on ["192.168.0.0/24"] and ["fd00::/8"] the
    returned ipv6subnet is not "0:0:0:0000::/64". *)
Lemma scenario_fd00_not_zero_base :
  ~ (exists r,
        deriveUlaFromIpv4 (str "192.168.0.0/24") (str "fd00::/8") = Normal r
        /\ ipv6subnet r = str "0:0:0:0000::/64").
Proof.
  intros (r & Hr & Hs). vm_compute in Hr. injection Hr as <-.
  vm_compute in Hs. discriminate.
Qed.

(** C3, amended. [deriveUlaFromIpv4("192.168.0.0/24", "fd00::/8")] has
    subnet identifier "0000" and returns ipv6subnet "fd00:0:0:0000::/64"
    and ipv6gateway "fd00:0:0:0000::1": the leading hextet "fd00" of the
    prefix is kept and padded with two "0" hextets. *)
Theorem scenario_fd00 :
  exists octets,
    ipv4_octets (str "192.168.0.0/24") = Normal octets
    /\ subnet_id_hex (index octets 2) (index octets 3) = str "0000"
    /\ deriveUlaFromIpv4 (str "192.168.0.0/24") (str "fd00::/8")
       = Normal {| ipv6subnet := str "fd00:0:0:0000::/64";
                   ipv6gateway := str "fd00:0:0:0000::1" |}.
Proof.
  eexists. split; [vm_compute; reflexivity|].
  split; vm_compute; reflexivity.
Qed.

(** C4. For every pair of inputs (in particular for every IPv4 text of
    four decimal octets and every IPv6 prefix text) the call returns, and
    the returned ipv6gateway is the returned ipv6subnet with the "/64"
    suffix removed and the trailing "::" replaced by "::1". *)
Theorem gateway_is_subnet_first_host ipv4 ula :
  exists r net,
    deriveUlaFromIpv4 ipv4 ula = Normal r
    /\ ipv6subnet r = (net ++ str "::") ++ str "/64"
    /\ ipv6gateway r = net ++ str "::1".
Proof.
  destruct (deriveUlaFromIpv4_shape ipv4 ula)
    as (octets & hextets & h0 & h1 & h2 & _ & _ & _ & _ & _ & _ & E).
  cbv zeta in E. eexists.
  exists (h0 ++ str ":" ++ h1 ++ str ":" ++ h2 ++ str ":"
             ++ subnet_id_hex (index octets 2) (index octets 3)).
  split; [exact E|].
  cbn [ipv6subnet ipv6gateway]. split; [|reflexivity].
  exact (app_assoc _ (str "::") (str "/64")).
Qed.

(** C9. An octet outside 0-255 is accepted silently: with third octet 256
    the call returns and the fourth group of ipv6subnet is the five-digit
    "10000"; with third octet -1 it returns and the group is "-100", which
    carries a minus sign.  Neither is a four-digit hextet.  No call, on
    any pair of strings, throws. *)
Theorem out_of_range_octet_accepted :
  (exists ipv4 ula octets r,
      ipv4_octets ipv4 = Normal octets
      /\ octet_value (index octets 2) = Some 256
      /\ deriveUlaFromIpv4 ipv4 ula = Normal r
      /\ hextet 3 (ipv6subnet r) = Some (str "10000")
      /\ is_hex4 (str "10000") = false)
  /\ (exists ipv4 ula octets r,
         ipv4_octets ipv4 = Normal octets
         /\ octet_value (index octets 2) = Some (-1)
         /\ deriveUlaFromIpv4 ipv4 ula = Normal r
         /\ hextet 3 (ipv6subnet r) = Some (str "-100")
         /\ In 45%N (str "-100")
         /\ is_hex4 (str "-100") = false)
  /\ (forall ipv4 ula, exists r, deriveUlaFromIpv4 ipv4 ula = Normal r).
Proof.
  split; [|split].
  - exists (str "10.0.256.0/24"), (str "fd52:425:78eb::/48").
    eexists; eexists. split; [vm_compute; reflexivity|].
    repeat split; vm_compute; reflexivity.
  - exists (str "10.0.-1.0/24"), (str "fd52:425:78eb::/48").
    eexists; eexists. split; [vm_compute; reflexivity|].
    split; [vm_compute; reflexivity|].
    split; [vm_compute; reflexivity|].
    split; [vm_compute; reflexivity|].
    split; [now left|vm_compute; reflexivity].
  - apply deriveUlaFromIpv4_total.
Qed.

(** C10. deriveUlaFromIpv4 returns normally on every pair of strings; for
    an IPv4 input with fewer than 3 dot-separated components octet3 and
    octet4 are both absent, they count as 0 in the shift and the
    bitwise or, and the subnet identifier is "0000". *)
Theorem missing_octets_give_0000 :
  (forall ipv4 ula, exists r, deriveUlaFromIpv4 ipv4 ula = Normal r)
  /\ (forall ipv4 ula,
         (length (split ipv4 (str ".")) < 3)%nat ->
         exists octets r,
           ipv4_octets ipv4 = Normal octets
           /\ index octets 2 = None /\ index octets 3 = None
           /\ ToInt32 (ToNumber (index octets 2)) = 0
           /\ ToInt32 (ToNumber (index octets 3)) = 0
           /\ subnet_id_hex (index octets 2) (index octets 3) = str "0000"
           /\ deriveUlaFromIpv4 ipv4 ula = Normal r
           /\ hextet 3 (ipv6subnet r) = Some (str "0000")
           /\ hextet 3 (ipv6gateway r) = Some (str "0000")).
Proof.
  split; [apply deriveUlaFromIpv4_total|].
  intros ipv4 ula Hlen.
  destruct (deriveUlaFromIpv4_total ipv4 ula) as [r Hr].
  pose proof (ipv4_octets_normal ipv4) as Ho.
  pose proof (ipv4Address_components ipv4) as Hc.
  set (octets := map Number _) in Ho.
  assert (Hl : (length octets < 3)%nat)
    by (unfold octets; rewrite length_map; lia).
  assert (H2 : index octets 2 = None) by (apply index_none; lia).
  assert (H3 : index octets 3 = None) by (apply index_none; lia).
  destruct (hextet_3_subnet_id _ _ _ _ Ho Hr) as [Es Eg].
  exists octets, r. rewrite Es, Eg, H2, H3.
  repeat split; assumption || reflexivity.
Qed.

Lemma missing_octets_give_0000_witness :
  exists octets r,
    ipv4_octets (str "10.89") = Normal octets
    /\ index octets 2 = None /\ index octets 3 = None
    /\ ToInt32 (ToNumber (index octets 2)) = 0
    /\ ToInt32 (ToNumber (index octets 3)) = 0
    /\ subnet_id_hex (index octets 2) (index octets 3) = str "0000"
    /\ deriveUlaFromIpv4 (str "10.89") (str "fd52:425::/48") = Normal r
    /\ hextet 3 (ipv6subnet r) = Some (str "0000")
    /\ hextet 3 (ipv6gateway r) = Some (str "0000").
Proof.
  apply (proj2 missing_octets_give_0000 (str "10.89") (str "fd52:425::/48")).
  vm_compute. lia.
Defined.

(** C7. For every ULA prefix text with exactly 2 leading hextets before
    "::" and every IPv4 input, the call returns and the network base in
    both results is the two hextets followed by a literal "0" third
    hextet. *)
Theorem short_prefix_padded ipv4 h0 h1 rest :
  is_hextet_text h0 = true -> is_hextet_text h1 = true ->
  exists octets r,
    ipv4_octets ipv4 = Normal octets
    /\ deriveUlaFromIpv4 ipv4 (ula_text [h0; h1] rest) = Normal r
    /\ ipv6subnet r
       = (h0 ++ str ":" ++ h1 ++ str ":" ++ str "0") ++ str ":"
           ++ subnet_id_hex (index octets 2) (index octets 3) ++ str "::/64"
    /\ hextet 2 (ipv6subnet r) = Some (str "0")
    /\ hextet 2 (ipv6gateway r) = Some (str "0").
Proof.
  intros H0 H1.
  assert (Hh : ula_hextets (ula_text [h0; h1] rest) = Normal [h0; h1]).
  { apply ula_hextets_text; [discriminate|].
    apply are_hextet_texts. cbn [forallb]. now rewrite H0, H1. }
  pose proof (ipv4_octets_normal ipv4) as Ho.
  set (octets := map Number _) in Ho.
  pose proof (deriveUlaFromIpv4_eq _ _ _ _ Ho Hh) as E. cbv zeta in E.
  destruct (deriveUlaFromIpv4_groups _ _ _ _ _ Ho Hh E) as [Es Eg].
  exists octets. eexists. split; [exact Ho|]. split; [exact E|].
  unfold hextet. rewrite Es, Eg. cbn [ipv6subnet].
  split; [|split; reflexivity].
  cbn [push_zeros length Nat.ltb Nat.leb app firstn join].
  now repeat rewrite <- app_assoc.
Qed.

Lemma short_prefix_padded_witness :
  exists octets r,
    ipv4_octets (str "10.89.5.0/24") = Normal octets
    /\ deriveUlaFromIpv4 (str "10.89.5.0/24")
         (ula_text [str "fd52"; str "425"] (str "/48")) = Normal r
    /\ ipv6subnet r
       = (str "fd52" ++ str ":" ++ str "425" ++ str ":" ++ str "0") ++ str ":"
           ++ subnet_id_hex (index octets 2) (index octets 3) ++ str "::/64"
    /\ hextet 2 (ipv6subnet r) = Some (str "0")
    /\ hextet 2 (ipv6gateway r) = Some (str "0").
Proof.
  apply (short_prefix_padded (str "10.89.5.0/24") (str "fd52") (str "425")
           (str "/48")); reflexivity.
Defined.

(** C8. For every ULA prefix text with 4 or more leading hextets before
    "::" and every IPv4 input, the call returns the first 3 hextets and
    the subnet identifier of the IPv4 input: the hextets beyond the 3rd
    and the text after "::" appear in neither result, and the results are
    those of the prefix cut to its first 3 hextets. *)
Theorem long_prefix_truncated ipv4 :
  exists octets,
    ipv4_octets ipv4 = Normal octets
    /\ forall h0 h1 h2 h3 more rest,
         forallb is_hextet_text (h0 :: h1 :: h2 :: h3 :: more) = true ->
         let net := h0 ++ str ":" ++ h1 ++ str ":" ++ h2 ++ str ":"
                      ++ subnet_id_hex (index octets 2) (index octets 3) in
         deriveUlaFromIpv4 ipv4 (ula_text (h0 :: h1 :: h2 :: h3 :: more) rest)
         = Normal {| ipv6subnet := net ++ str "::/64";
                     ipv6gateway := net ++ str "::1" |}
         /\ deriveUlaFromIpv4 ipv4
              (ula_text (h0 :: h1 :: h2 :: h3 :: more) rest)
            = deriveUlaFromIpv4 ipv4 (ula_text [h0; h1; h2] []).
Proof.
  pose proof (ipv4_octets_normal ipv4) as Ho.
  set (octets := map Number _) in Ho.
  exists octets. split; [exact Ho|].
  intros h0 h1 h2 h3 more rest Hall net.
  assert (Hall3 : forallb is_hextet_text [h0; h1; h2] = true).
  { cbn [forallb] in *.
    repeat (apply andb_true_iff in Hall; destruct Hall as [?H Hall]).
    now rewrite H, H0, H1. }
  rewrite (deriveUlaFromIpv4_eq _ _ octets (h0 :: h1 :: h2 :: h3 :: more)),
    (deriveUlaFromIpv4_eq _ _ octets [h0; h1; h2]);
    try assumption;
    try (apply ula_hextets_text; [discriminate|now apply are_hextet_texts]).
  cbn [push_zeros length Nat.ltb Nat.leb firstn join]. cbv zeta.
  split; [|reflexivity].
  subst net. now repeat rewrite <- app_assoc.
Qed.

Lemma long_prefix_truncated_witness :
  exists octets,
    ipv4_octets (str "192.168.20.0/24") = Normal octets
    /\ let net := str "fd52" ++ str ":" ++ str "425" ++ str ":" ++ str "78eb"
                    ++ str ":"
                    ++ subnet_id_hex (index octets 2) (index octets 3) in
       deriveUlaFromIpv4 (str "192.168.20.0/24")
         (ula_text [str "fd52"; str "425"; str "78eb"; str "9"; str "abcd"]
            (str "/64"))
       = Normal {| ipv6subnet := net ++ str "::/64";
                   ipv6gateway := net ++ str "::1" |}
       /\ deriveUlaFromIpv4 (str "192.168.20.0/24")
            (ula_text [str "fd52"; str "425"; str "78eb"; str "9"; str "abcd"]
               (str "/64"))
          = deriveUlaFromIpv4 (str "192.168.20.0/24")
              (ula_text [str "fd52"; str "425"; str "78eb"] []).
Proof.
  destruct (long_prefix_truncated (str "192.168.20.0/24")) as (octets & Ho & H).
  exists octets. split; [exact Ho|].
  apply (H (str "fd52") (str "425") (str "78eb") (str "9") [str "abcd"]
           (str "/64")).
  reflexivity.
Defined.

(** C5. For a fixed ULA prefix, two IPv4 inputs whose third and fourth
    octets are octets (0-255) have the same subnet identifier, the fourth
    group of ipv6subnet, exactly when the two octet pairs are equal,
    whatever octets 1-2 and the CIDR suffix are; the identifier of an octet
    pair is a four-digit lowercase hextet, and every such hextet is the
    identifier of an octet pair: the map from the 65536 pairs to the
    fourth hextet is a bijection. *)
Theorem subnet_id_bijection :
  (forall ula a b oa ob ra rb n3 n4 m3 m4,
      ipv4_octets a = Normal oa -> ipv4_octets b = Normal ob ->
      valid_octet (index oa 2) n3 -> valid_octet (index oa 3) n4 ->
      valid_octet (index ob 2) m3 -> valid_octet (index ob 3) m4 ->
      deriveUlaFromIpv4 a ula = Normal ra ->
      deriveUlaFromIpv4 b ula = Normal rb ->
      (hextet 3 (ipv6subnet ra) = hextet 3 (ipv6subnet rb)
       <-> (n3, n4) = (m3, m4)))
  /\ (forall ula a oa ra n3 n4,
         ipv4_octets a = Normal oa ->
         valid_octet (index oa 2) n3 -> valid_octet (index oa 3) n4 ->
         deriveUlaFromIpv4 a ula = Normal ra ->
         exists h, hextet 3 (ipv6subnet ra) = Some h /\ is_hex4 h = true)
  /\ (forall ula h,
         is_hex4 h = true ->
         exists a oa ra n3 n4,
           ipv4_octets a = Normal oa
           /\ valid_octet (index oa 2) n3 /\ valid_octet (index oa 3) n4
           /\ deriveUlaFromIpv4 a ula = Normal ra
           /\ hextet 3 (ipv6subnet ra) = Some h).
Proof.
  split; [|split].
  - intros ula a b oa ob ra rb n3 n4 m3 m4 Hoa Hob Hn3 Hn4 Hm3 Hm4 Hra Hrb.
    destruct (hextet_3_subnet_id _ _ _ _ Hoa Hra) as [-> _].
    destruct (hextet_3_subnet_id _ _ _ _ Hob Hrb) as [-> _].
    rewrite (subnet_id_hex_octets _ _ _ _ Hn3 Hn4),
      (subnet_id_hex_octets _ _ _ _ Hm3 Hm4).
    destruct Hn3 as [_ Hn3], Hn4 as [_ Hn4], Hm3 as [_ Hm3], Hm4 as [_ Hm4].
    split.
    + intros H.
      assert (Some_inj : forall x y : jsstring, Some x = Some y -> x = y)
        by congruence.
      apply Some_inj, hex4_inj in H; [|lia|lia].
      apply Z2N.inj in H; [|lia|lia].
      assert (n3 = m3) by lia. assert (n4 = m4) by lia. now subst.
    + intros H. injection H as -> ->. reflexivity.
  - intros ula a oa ra n3 n4 Hoa Hn3 Hn4 Hra.
    destruct (hextet_3_subnet_id _ _ _ _ Hoa Hra) as [-> _].
    eexists. split; [reflexivity|].
    rewrite (subnet_id_hex_octets _ _ _ _ Hn3 Hn4). apply hex4_is_hex4.
  - intros ula h Hh.
    destruct (hex4_surj h Hh) as (n & Hn & <-).
    set (n3 := Z.of_N n / 256). set (n4 := Z.of_N n mod 256).
    assert (R3 : 0 <= n3 <= 255).
    { unfold n3. split; [apply Z.div_pos; lia|].
      apply Z.lt_succ_r, Z.div_lt_upper_bound; lia. }
    assert (R4 : 0 <= n4 <= 255).
    { unfold n4. pose proof (Z.mod_pos_bound (Z.of_N n) 256). lia. }
    destruct (octet_text_spec n3 R3) as (V3 & D3 & S3).
    destruct (octet_text_spec n4 R4) as (V4 & D4 & S4).
    set (a := dotted (str "0") (str "0") (octet_text n3) (octet_text n4)).
    assert (Hoa : ipv4_octets a
                  = Normal [Number (str "0"); Number (str "0");
                            Number (octet_text n3); Number (octet_text n4)]).
    { apply ipv4_octets_dotted; try assumption;
        try (cbn; intros [H|[]]; discriminate).
      unfold a, dotted. intros H.
      repeat (apply in_app_or in H; destruct H as [H|H]);
        try (cbn in H; destruct H as [H|[]]; discriminate);
        auto. }
    destruct (deriveUlaFromIpv4_total a ula) as [ra Hra].
    destruct (hextet_3_subnet_id _ _ _ _ Hoa Hra) as [E _].
    exists a; eexists; exists ra, n3, n4.
    split; [exact Hoa|]. cbn [index nth_error] in *.
    split; [exact V3|]. split; [exact V4|]. split; [exact Hra|].
    rewrite E, (subnet_id_hex_octets _ _ _ _ V3 V4).
    do 2 f_equal. unfold n3, n4.
    rewrite <- Z.div_mod by lia. apply N2Z.id.
Qed.

Lemma subnet_id_bijection_witness :
  hextet 3 (ipv6subnet {| ipv6subnet := str "fd52:425:0:1400::/64";
                          ipv6gateway := str "fd52:425:0:1400::1" |})
  = hextet 3 (ipv6subnet {| ipv6subnet := str "fd52:425:0:0507::/64";
                            ipv6gateway := str "fd52:425:0:0507::1" |})
  <-> (20, 0) = (5, 7).
Proof.
  apply (proj1 subnet_id_bijection (str "fd52:425::/48")
           (str "192.168.20.0/24") (str "10.89.5.7")
           (map Number [str "192"; str "168"; str "20"; str "0"])
           (map Number [str "10"; str "89"; str "5"; str "7"])
           _ _ 20 0 5 7);
    try (vm_compute; reflexivity); split; (vm_compute; reflexivity) || lia.
Defined.

(** * Further properties of deriveUlaFromIpv4 *)

Lemma lacks_spec c s : lacks c s = true <-> ~ In c s.
Proof.
  unfold lacks. rewrite negb_true_iff. split.
  - intros H Hin. assert (E : existsb (N.eqb c) s = true).
    { apply existsb_exists. exists c. split; [assumption|apply N.eqb_refl]. }
    congruence.
  - intros H. destruct (existsb (N.eqb c) s) eqn:E; [|reflexivity].
    apply existsb_exists in E. destruct E as (x & Hin & Hx).
    apply N.eqb_eq in Hx. subst. contradiction.
Qed.

Lemma is_component_spec s :
  is_component s = true -> ~ In DOT s /\ ~ In SLASH s.
Proof.
  unfold is_component. intros H. apply andb_true_iff in H.
  destruct H as [H1 H2]. now rewrite <- !lacks_spec.
Qed.

(** The text before the first slash. *)
Lemma split_slash_hd a rest :
  ~ In SLASH a -> hd [] (split (a ++ SLASH :: rest) [SLASH]) = a.
Proof. intros H. now rewrite split_char_app. Qed.

Lemma split_slash_hd_none a : ~ In SLASH a -> hd [] (split a [SLASH]) = a.
Proof. intros H. now rewrite split_char_none. Qed.

Lemma ipv4_octets_suffix addr suffix :
  ~ In SLASH addr ->
  ipv4_octets (addr ++ str "/" ++ suffix) = ipv4_octets addr.
Proof.
  intros H. rewrite !ipv4_octets_normal. change (str "/") with [SLASH].
  cbn [app]. now rewrite split_slash_hd, split_slash_hd_none.
Qed.

Lemma ula_hextets_suffix u suffix :
  ~ In SLASH u ->
  ula_hextets (u ++ str "/" ++ suffix) = ula_hextets u.
Proof.
  intros H. unfold ula_hextets. change (str "/") with [SLASH].
  rewrite !split_index_0. cbn [app].
  now rewrite split_slash_hd, split_slash_hd_none.
Qed.

(** X2. The prefix length of the IPv4 input is ignored: an address text
    without a slash gives the same result with and without a "/..."
    suffix, whatever the suffix is. *)
Theorem ipv4_prefix_length_ignored addr suffix ula :
  lacks SLASH addr = true ->
  deriveUlaFromIpv4 (addr ++ str "/" ++ suffix) ula
  = deriveUlaFromIpv4 addr ula.
Proof.
  intros H. apply lacks_spec in H.
  now rewrite !deriveUlaFromIpv4_sections, ipv4_octets_suffix.
Qed.

Lemma ipv4_prefix_length_ignored_witness :
  deriveUlaFromIpv4 (str "192.168.20.0" ++ str "/" ++ str "24")
    (str "fd52:425:78eb::/48")
  = deriveUlaFromIpv4 (str "192.168.20.0") (str "fd52:425:78eb::/48").
Proof.
  apply (ipv4_prefix_length_ignored (str "192.168.20.0") (str "24")
           (str "fd52:425:78eb::/48")).
  reflexivity.
Defined.

(** X3. The prefix length of the ULA prefix is ignored: a prefix text
    without a slash gives the same result with and without a "/..."
    suffix. *)
Theorem ula_prefix_length_ignored ipv4 u suffix :
  lacks SLASH u = true ->
  deriveUlaFromIpv4 ipv4 (u ++ str "/" ++ suffix)
  = deriveUlaFromIpv4 ipv4 u.
Proof.
  intros H. apply lacks_spec in H.
  now rewrite !deriveUlaFromIpv4_sections, ula_hextets_suffix.
Qed.

Lemma ula_prefix_length_ignored_witness :
  deriveUlaFromIpv4 (str "10.89.5.0/24") (str "fd52:425::" ++ str "/" ++ str "48")
  = deriveUlaFromIpv4 (str "10.89.5.0/24") (str "fd52:425::").
Proof.
  apply (ula_prefix_length_ignored (str "10.89.5.0/24") (str "fd52:425::")
           (str "48")).
  reflexivity.
Defined.

(** X1. Whatever the two strings are, the call returns and both results
    have exactly six colon-separated groups: three hextets, the subnet
    identifier, the empty group of "::", and "/64" for the subnet, "1" for
    the gateway.  The two results share their first four groups. *)
Theorem results_have_four_leading_groups ipv4 ula :
  exists r h0 h1 h2 id,
    deriveUlaFromIpv4 ipv4 ula = Normal r
    /\ split (ipv6subnet r) (str ":") = [h0; h1; h2; id; []; str "/64"]
    /\ split (ipv6gateway r) (str ":") = [h0; h1; h2; id; []; str "1"].
Proof.
  destruct (deriveUlaFromIpv4_total ipv4 ula) as [r Hr].
  pose proof (ipv4_octets_normal ipv4) as Ho.
  destruct (ula_hextets_normal ula) as (hextets & Hh & Hc).
  destruct (deriveUlaFromIpv4_groups _ _ _ _ _ Ho Hh Hr) as [Es Eg].
  destruct (push_zeros_first3 hextets Hc) as (h0 & h1 & h2 & Hf & _).
  rewrite Hf in Es, Eg.
  exists r, h0, h1, h2,
    (subnet_id_hex
       (index (map Number (split (hd [] (split ipv4 (str "/"))) (str "."))) 2)
       (index (map Number (split (hd [] (split ipv4 (str "/"))) (str "."))) 3)).
  split; [exact Hr|]. split; [exact Es|exact Eg].
Qed.

(** ** The leading hextets of the prefix *)

Lemma deriveUlaFromIpv4_of_hextets ipv4 ula hextets :
  ula_hextets ula = Normal hextets ->
  exists octets,
    ipv4_octets ipv4 = Normal octets
    /\ deriveUlaFromIpv4 ipv4 ula
       = let net := join (firstn 3 (hextets ++ [str "0"; str "0"; str "0"]))
                      (str ":")
                    ++ str ":"
                    ++ subnet_id_hex (index octets 2) (index octets 3) in
         Normal {| ipv6subnet := net ++ str "::/64";
                   ipv6gateway := net ++ str "::1" |}.
Proof.
  intros Hh. eexists. split; [apply ipv4_octets_normal|].
  rewrite (deriveUlaFromIpv4_eq _ _ _ _ (ipv4_octets_normal ipv4) Hh).
  cbv zeta. rewrite push_zeros_pad.
  assert (E : firstn 3 (hextets ++ repeat (str "0") (3 - length hextets))
              = firstn 3 (hextets ++ [str "0"; str "0"; str "0"])).
  { destruct hextets as [|a [|b [|c r]]]; reflexivity. }
  rewrite E. f_equal. f_equal; repeat rewrite <- app_assoc; reflexivity.
Qed.

(** X4. For a prefix text with at least one leading hextet before "::",
    the network base is the first three of the leading hextets followed by
    "0" hextets: one leading hextet is padded with two zeros, two with
    one, three or more are cut to three.  The text after "::" has no
    effect. *)
Theorem leading_hextets_padded_or_cut ipv4 h t rest :
  forallb is_hextet_text (h :: t) = true ->
  exists octets,
    ipv4_octets ipv4 = Normal octets
    /\ deriveUlaFromIpv4 ipv4 (ula_text (h :: t) rest)
       = let net := join (firstn 3 (h :: t ++ [str "0"; str "0"; str "0"]))
                      (str ":")
                    ++ str ":"
                    ++ subnet_id_hex (index octets 2) (index octets 3) in
         Normal {| ipv6subnet := net ++ str "::/64";
                   ipv6gateway := net ++ str "::1" |}.
Proof.
  intros Hall.
  apply (deriveUlaFromIpv4_of_hextets ipv4 _ (h :: t)).
  apply ula_hextets_text; [discriminate|now apply are_hextet_texts].
Qed.

Lemma leading_hextets_padded_or_cut_witness :
  exists octets,
    ipv4_octets (str "192.168.7.9") = Normal octets
    /\ deriveUlaFromIpv4 (str "192.168.7.9")
         (ula_text [str "fd00"] (str "/8"))
       = let net := join (firstn 3 ([str "fd00"]
                                      ++ [str "0"; str "0"; str "0"]))
                      (str ":")
                    ++ str ":"
                    ++ subnet_id_hex (index octets 2) (index octets 3) in
         Normal {| ipv6subnet := net ++ str "::/64";
                   ipv6gateway := net ++ str "::1" |}.
Proof.
  apply (leading_hextets_padded_or_cut (str "192.168.7.9") (str "fd00") []
           (str "/8")).
  reflexivity.
Defined.

Lemma ula_hextets_empty_base rest :
  ula_hextets (str "::" ++ rest) = Normal []
  /\ ula_hextets (str "/" ++ rest) = Normal []
  /\ ula_hextets [] = Normal [].
Proof.
  split; [|split]; [| |reflexivity].
  - unfold ula_hextets. change (str "/") with [SLASH].
    rewrite split_index_0, split_hd_app
      by (cbn; intros [H|[H|[]]]; discriminate).
    reflexivity.
  - unfold ula_hextets. change (str "/") with [SLASH].
    rewrite split_index_0.
    cbn [app].
    assert (E : split (SLASH :: rest) [SLASH] = [] :: split rest [SLASH])
      by (apply (split_char_app SLASH [] rest); intros []).
    rewrite E. reflexivity.
Qed.

(** X5. The edge case of an empty first hextet: for a prefix that starts
    with "::" (as "::/48"), that starts with "/", or that is the empty
    string, the network base is "0:0:0", whatever follows. *)
Theorem empty_prefix_gives_zero_base ipv4 rest :
  exists octets,
    ipv4_octets ipv4 = Normal octets
    /\ let id := subnet_id_hex (index octets 2) (index octets 3) in
       let r := {| ipv6subnet := str "0:0:0:" ++ id ++ str "::/64";
                   ipv6gateway := str "0:0:0:" ++ id ++ str "::1" |} in
       deriveUlaFromIpv4 ipv4 (str "::" ++ rest) = Normal r
       /\ deriveUlaFromIpv4 ipv4 (str "/" ++ rest) = Normal r
       /\ deriveUlaFromIpv4 ipv4 [] = Normal r.
Proof.
  destruct (ula_hextets_empty_base rest) as (H1 & H2 & H3).
  pose proof (ipv4_octets_normal ipv4) as Ho.
  eexists. split; [exact Ho|]. cbv zeta.
  rewrite (deriveUlaFromIpv4_eq _ _ _ _ Ho H1),
    (deriveUlaFromIpv4_eq _ _ _ _ Ho H2),
    (deriveUlaFromIpv4_eq _ _ _ _ Ho H3).
  cbv zeta. cbn [push_zeros length Nat.ltb Nat.leb app firstn join].
  repeat split; f_equal; f_equal; repeat rewrite <- app_assoc; reflexivity.
Qed.

Lemma split_double_colon_none hs cur :
  hs <> [] -> Forall hextet_text hs ->
  split_from [COLON; COLON] (join hs [COLON]) 0 cur
  = [rev cur ++ join hs [COLON]].
Proof.
  intros Hne Hall. revert cur.
  induction Hall as [|h t (Hh & Hc & _) Ht IH]; [contradiction|]; intros cur.
  rewrite join_cons, split_from_pass by assumption.
  destruct t as [|h' t'].
  - cbn. now rewrite rev_app_distr, rev_involutive, app_nil_r.
  - specialize (IH ltac:(discriminate)).
    inversion Ht as [|? ? (Hh' & Hc' & _) _]; subst.
    cbn [app]. rewrite split_from_step, IH.
    + cbn [rev]. rewrite rev_app_distr, rev_involutive.
      now repeat rewrite <- app_assoc.
    + rewrite join_cons. destruct h' as [|x h'']; [contradiction|].
      cbn [app starts_with]. rewrite N.eqb_refl.
      destruct (N.eqb_spec COLON x) as [<-|_]; [|reflexivity].
      exfalso; apply Hc'; now left.
Qed.

Lemma join_hextets_no_slash hs :
  Forall hextet_text hs -> ~ In SLASH (join hs [COLON]).
Proof.
  intros Hall H. apply in_join in H.
  destruct H as [[H|[]]|(h & Hin & Hc)]; [discriminate|].
  rewrite Forall_forall in Hall. now apply (Hall h Hin).
Qed.

(** A prefix text written without "::". *)
Lemma ula_hextets_uncompressed hs :
  hs <> [] -> Forall hextet_text hs ->
  ula_hextets (join hs (str ":")) = Normal hs.
Proof.
  intros Hne Hall. unfold ula_hextets.
  change (str "/") with [SLASH]. change (str "::") with [COLON; COLON].
  change (str ":") with [COLON].
  rewrite split_index_0, split_slash_hd_none
    by now apply join_hextets_no_slash.
  cbn [call_split bind]. rewrite split_index_0. unfold split at 1.
  rewrite split_double_colon_none by assumption.
  cbn [rev app hd call_split bind].
  rewrite split_join_colon.
  2: assumption.
  2:{ eapply Forall_impl; [|exact Hall]. now intros h (_ & Hc & _). }
  destruct hs as [|h [|h' t]]; [contradiction| |reflexivity].
  inversion Hall as [|? ? (Hh & _) _]; subst.
  destruct h; [contradiction|reflexivity].
Qed.

(** X6. A prefix written in full, without "::" (hextets joined by single
    colons, with or without a "/..." suffix), is cut to its first three
    hextets in the same way; fewer than three are padded with "0". *)
Theorem uncompressed_prefix_padded_or_cut ipv4 h t suffix :
  forallb is_hextet_text (h :: t) = true ->
  exists octets,
    ipv4_octets ipv4 = Normal octets
    /\ let net := join (firstn 3 (h :: t ++ [str "0"; str "0"; str "0"]))
                    (str ":")
                  ++ str ":"
                  ++ subnet_id_hex (index octets 2) (index octets 3) in
       let r := {| ipv6subnet := net ++ str "::/64";
                   ipv6gateway := net ++ str "::1" |} in
       deriveUlaFromIpv4 ipv4 (join (h :: t) (str ":")) = Normal r
       /\ deriveUlaFromIpv4 ipv4 (join (h :: t) (str ":") ++ str "/" ++ suffix)
          = Normal r.
Proof.
  intros Hall. apply are_hextet_texts in Hall.
  assert (Hh : ula_hextets (join (h :: t) (str ":")) = Normal (h :: t))
    by (apply ula_hextets_uncompressed; [discriminate|assumption]).
  destruct (deriveUlaFromIpv4_of_hextets ipv4 _ _ Hh) as (octets & Ho & E).
  exists octets. split; [exact Ho|]. cbv zeta in *.
  split; [exact E|].
  rewrite deriveUlaFromIpv4_sections, ula_hextets_suffix,
    <- deriveUlaFromIpv4_sections; [exact E|].
  now apply join_hextets_no_slash.
Qed.

Lemma uncompressed_prefix_padded_or_cut_witness :
  exists octets,
    ipv4_octets (str "10.0.3.4") = Normal octets
    /\ let net := join (firstn 3 ([str "fd52"; str "425"; str "78eb"; str "1";
                                   str "2"; str "3"; str "4"; str "5"]
                                    ++ [str "0"; str "0"; str "0"]))
                    (str ":")
                  ++ str ":"
                  ++ subnet_id_hex (index octets 2) (index octets 3) in
       let r := {| ipv6subnet := net ++ str "::/64";
                   ipv6gateway := net ++ str "::1" |} in
       deriveUlaFromIpv4 (str "10.0.3.4")
         (join [str "fd52"; str "425"; str "78eb"; str "1"; str "2"; str "3";
                str "4"; str "5"] (str ":")) = Normal r
       /\ deriveUlaFromIpv4 (str "10.0.3.4")
            (join [str "fd52"; str "425"; str "78eb"; str "1"; str "2";
                   str "3"; str "4"; str "5"] (str ":")
               ++ str "/" ++ str "64")
          = Normal r.
Proof.
  apply (uncompressed_prefix_padded_or_cut (str "10.0.3.4") (str "fd52")
           [str "425"; str "78eb"; str "1"; str "2"; str "3"; str "4"; str "5"]
           (str "64")).
  reflexivity.
Defined.

(** ** The components of the IPv4 address *)

Lemma dotted_no_slash a b c d :
  ~ In SLASH a -> ~ In SLASH b -> ~ In SLASH c -> ~ In SLASH d ->
  ~ In SLASH (dotted a b c d).
Proof.
  intros Ha Hb Hc Hd H. unfold dotted in H.
  repeat (apply in_app_or in H; destruct H as [H|H]);
    try (cbn in H; destruct H as [H|[]]; discriminate); auto.
Qed.

Lemma ipv4_octets_three a b c :
  ~ In SLASH a -> ~ In SLASH b -> ~ In SLASH c ->
  ~ In DOT a -> ~ In DOT b -> ~ In DOT c ->
  ipv4_octets (a ++ str "." ++ b ++ str "." ++ c)
  = Normal [Number a; Number b; Number c].
Proof.
  intros Sa Sb Sc Da Db Dc. rewrite ipv4_octets_normal.
  change (str "/") with [SLASH]. change (str ".") with [DOT].
  rewrite split_slash_hd_none.
  - cbn [app]. now rewrite !split_char_app, split_char_none by assumption.
  - intros H.
    repeat (apply in_app_or in H; destruct H as [H|H]);
      try (cbn in H; destruct H as [H|[]]; discriminate); auto.
Qed.

Lemma ipv4_octets_more a b c d more :
  ~ In SLASH (dotted a b c d) -> ~ In SLASH more ->
  ~ In DOT a -> ~ In DOT b -> ~ In DOT c -> ~ In DOT d ->
  ipv4_octets (dotted a b c d ++ str "." ++ more)
  = Normal (Number a :: Number b :: Number c :: Number d
              :: map Number (split more (str "."))).
Proof.
  intros Hs Hm Ha Hb Hc Hd. rewrite ipv4_octets_normal.
  change (str "/") with [SLASH]. change (str ".") with [DOT].
  rewrite split_slash_hd_none.
  - unfold dotted. change (str ".") with [DOT].
    repeat rewrite <- app_assoc. cbn [app].
    now rewrite !split_char_app by assumption.
  - intros H. apply in_app_or in H. destruct H as [H|H]; [auto|].
    cbn in H. destruct H as [H|H]; [discriminate|auto].
Qed.

Lemma subnet_id_hex_absent_fourth v3 :
  subnet_id_hex v3 None = subnet_id_hex v3 (Some (S754_zero false)).
Proof. reflexivity. Qed.

(** X7. A missing fourth octet counts as 0: for an address of exactly
    three dot-separated components whose third is an octet [n3], the
    subnet identifier is the four hexadecimal digits of [256 * n3], that
    is the two digits of [n3] followed by "00". *)
Theorem missing_fourth_octet_is_zero ula a b c n3 :
  is_component a = true -> is_component b = true -> is_component c = true ->
  valid_octet (Some (Number c)) n3 ->
  exists r,
    deriveUlaFromIpv4 (a ++ str "." ++ b ++ str "." ++ c) ula = Normal r
    /\ hextet 3 (ipv6subnet r)
       = Some ([hex_digit (Z.to_N n3 / 16); hex_digit (Z.to_N n3 mod 16)]
                 ++ str "00")
    /\ hextet 3 (ipv6gateway r) = hextet 3 (ipv6subnet r).
Proof.
  intros Ha Hb Hc Hv.
  apply is_component_spec in Ha, Hb, Hc.
  destruct Ha as [Da Sa], Hb as [Db Sb], Hc as [Dc Sc].
  pose proof (ipv4_octets_three a b c Sa Sb Sc Da Db Dc) as Ho.
  destruct (deriveUlaFromIpv4_total (a ++ str "." ++ b ++ str "." ++ c) ula)
    as [r Hr].
  destruct (hextet_3_subnet_id _ _ _ _ Ho Hr) as [Es Eg].
  exists r. split; [exact Hr|]. rewrite Es, Eg. split; [|reflexivity].
  cbn [index nth_error]. rewrite subnet_id_hex_absent_fourth.
  assert (Hz : valid_octet (Some (S754_zero false)) 0)
    by (split; [reflexivity|lia]).
  rewrite (subnet_id_hex_octets _ _ _ _ Hv Hz).
  destruct Hv as [_ Hr3]. f_equal.
  replace (Z.to_N (256 * n3 + 0)) with (Z.to_N n3 * 16 * 16)%N by lia.
  assert (Hm : (Z.to_N n3 < 256)%N) by lia.
  revert Hm. generalize (Z.to_N n3). intros m Hm.
  unfold hex4. rewrite !N.div_mul, !N.Div0.mod_mul by discriminate.
  rewrite (N.mod_small (m / 16) 16)
    by (apply N.Div0.div_lt_upper_bound; exact Hm).
  reflexivity.
Qed.

Lemma missing_fourth_octet_is_zero_witness :
  exists r,
    deriveUlaFromIpv4 (str "10" ++ str "." ++ str "89" ++ str "." ++ str "5")
      (str "fd52:425::/48") = Normal r
    /\ hextet 3 (ipv6subnet r)
       = Some ([hex_digit (Z.to_N 5 / 16); hex_digit (Z.to_N 5 mod 16)]
                 ++ str "00")
    /\ hextet 3 (ipv6gateway r) = hextet 3 (ipv6subnet r).
Proof.
  apply (missing_fourth_octet_is_zero (str "fd52:425::/48") (str "10")
           (str "89") (str "5") 5); try reflexivity.
  split; [vm_compute; reflexivity|lia].
Defined.

(** X8. Only the third and fourth dot-separated components of the address
    are read: whatever the first two components are, and whatever further
    components follow the fourth, the result is the same. *)
Theorem only_third_and_fourth_component_read ula a b a' b' c d more :
  forallb is_component [a; b; a'; b'; c; d] = true ->
  lacks SLASH more = true ->
  deriveUlaFromIpv4 (dotted a b c d) ula
  = deriveUlaFromIpv4 (dotted a' b' c d) ula
  /\ deriveUlaFromIpv4 (dotted a b c d ++ str "." ++ more) ula
     = deriveUlaFromIpv4 (dotted a b c d) ula.
Proof.
  intros Hall Hm. cbn [forallb] in Hall.
  repeat (apply andb_true_iff in Hall; destruct Hall as [?H Hall]).
  repeat match goal with
         | H : is_component _ = true |- _ =>
             apply is_component_spec in H; destruct H
         end.
  apply lacks_spec in Hm.
  rewrite !deriveUlaFromIpv4_sections.
  rewrite (ipv4_octets_dotted a b c d), (ipv4_octets_dotted a' b' c d),
    (ipv4_octets_more a b c d more);
    auto using dotted_no_slash.
Qed.

Lemma only_third_and_fourth_component_read_witness :
  deriveUlaFromIpv4 (dotted (str "192") (str "168") (str "20") (str "0"))
    (str "fd52:425::/48")
  = deriveUlaFromIpv4 (dotted (str "10") (str "89") (str "20") (str "0"))
      (str "fd52:425::/48")
  /\ deriveUlaFromIpv4
       (dotted (str "192") (str "168") (str "20") (str "0")
          ++ str "." ++ str "7.7")
       (str "fd52:425::/48")
     = deriveUlaFromIpv4 (dotted (str "192") (str "168") (str "20") (str "0"))
         (str "fd52:425::/48").
Proof.
  apply (only_third_and_fourth_component_read (str "fd52:425::/48")
           (str "192") (str "168") (str "10") (str "89") (str "20") (str "0")
           (str "7.7")); reflexivity.
Defined.

(** ** Reading the subnet identifier back *)

Local Open Scope N_scope.

Lemma digits_value_hex4 n :
  n < 65536 -> digits_value 16 0 (hex4 n) = Some n.
Proof.
  intros Hn. unfold hex4. cbn [digits_value].
  rewrite !digit_value_hex_digit by (apply N.mod_lt; lia).
  f_equal.
  assert (H3 : n / 16 / 16 / 16 < 16)
    by (repeat apply N.Div0.div_lt_upper_bound; exact Hn).
  rewrite (N.mod_small _ _ H3).
  pose proof (N.div_mod n 16 ltac:(lia)) as E0.
  pose proof (N.div_mod (n / 16) 16 ltac:(lia)) as E1.
  pose proof (N.div_mod (n / 16 / 16) 16 ltac:(lia)) as E2.
  revert E0 E1 E2.
  generalize (n mod 16), ((n / 16) mod 16), ((n / 16 / 16) mod 16).
  generalize (n / 16 / 16 / 16). intros q3 r0 r1 r2.
  generalize (n / 16 / 16). intros q2.
  generalize (n / 16). intros q1 E0 E1 E2. lia.
Qed.

(** The digits of a number are enough to hold it. *)
Lemma digits_value_bound ds : forall a v,
  digits_value 16 a ds = Some v -> v < (a + 1) * 16 ^ N.of_nat (length ds).
Proof.
  induction ds as [|c ds IH]; intros a v H; cbn [digits_value length] in *.
  - injection H as <-. cbn. lia.
  - unfold digit_value in H.
    destruct (if (48 <=? c) && (c <=? 57) then Some (c - 48)
              else if (97 <=? c) && (c <=? 122) then Some (c - 87)
              else if (65 <=? c) && (c <=? 90) then Some (c - 55)
              else None) as [d|]; [|discriminate].
    destruct (N.ltb_spec d 16) as [Hd|_]; [|discriminate].
    apply IH in H. rewrite Nat2N.inj_succ, N.pow_succ_r' .
    apply N.lt_le_trans with (1 := H).
    rewrite N.mul_assoc.
    apply N.mul_le_mono_r. lia.
Qed.

Lemma hex_of_N_length_lower n k :
  16 ^ N.of_nat k <= n -> (k < length (hex_of_N n))%nat.
Proof.
  intros Hk. pose proof (digits_value_bound _ _ _ (hex_of_N_value n)) as Hb.
  rewrite N.add_0_l, N.mul_1_l in Hb.
  destruct (Nat.lt_ge_cases k (length (hex_of_N n))) as [|Hge]; [assumption|].
  exfalso.
  assert (16 ^ N.of_nat (length (hex_of_N n)) <= 16 ^ N.of_nat k)
    by (apply N.pow_le_mono_r; lia).
  lia.
Qed.

Lemma to_radix16_length f n acc :
  (length (to_radix16 f n acc) <= f + length acc)%nat.
Proof.
  revert n acc; induction f as [|f IH]; intros n acc; [cbn; lia|].
  rewrite to_radix16_S. destruct (n / 16 =? 0).
  - cbn [length]. lia.
  - specialize (IH (n / 16) (hex_digit (n mod 16) :: acc)).
    cbn [length] in IH. lia.
Qed.

Lemma hex_of_N_length_upper n : n < 16 ^ 8 -> (length (hex_of_N n) <= 8)%nat.
Proof.
  intros Hn. unfold hex_of_N.
  rewrite (to_radix16_fuel _ 7) by (apply hex_of_N_fuel || exact Hn).
  pose proof (to_radix16_length 8 n []). cbn [length] in *. lia.
Qed.

Lemma is_lower_hex_hex_digit d : d < 16 -> is_lower_hex (hex_digit d) = true.
Proof.
  intros Hd. unfold is_lower_hex, hex_digit.
  destruct (N.ltb_spec d 10).
  - apply orb_true_iff; left; apply andb_true_iff; split; apply N.leb_le; lia.
  - apply orb_true_iff; right; apply andb_true_iff; split; apply N.leb_le; lia.
Qed.

Lemma to_radix16_lower_hex f n acc :
  forallb is_lower_hex acc = true ->
  forallb is_lower_hex (to_radix16 f n acc) = true.
Proof.
  revert n acc; induction f as [|f IH]; intros n acc Hacc; [exact Hacc|].
  rewrite to_radix16_S.
  assert (H : forallb is_lower_hex (hex_digit (n mod 16) :: acc) = true).
  { cbn [forallb]. rewrite is_lower_hex_hex_digit by (apply N.mod_lt; lia).
    exact Hacc. }
  destruct (n / 16 =? 0); [exact H|now apply IH].
Qed.

Lemma fill_to_length n fill cur :
  fill <> [] -> length (fill_to n fill cur) = n.
Proof.
  intros Hf. revert cur; induction n as [|n IH]; intros cur; [reflexivity|].
  cbn [fill_to]. destruct cur as [|c r].
  - destruct fill as [|c r]; [contradiction|]. cbn [length]. now rewrite IH.
  - cbn [length]. now rewrite IH.
Qed.

Lemma padStart_zero_length s : (4 <= length (padStart s 4 (str "0")))%nat.
Proof.
  unfold padStart. destruct (Nat.leb_spec 4 (length s)) as [H|H]; [exact H|].
  rewrite length_app, fill_to_length by discriminate. lia.
Qed.

Lemma padStart_zero_suffix s :
  exists zeros,
    padStart s 4 (str "0") = zeros ++ s
    /\ (length zeros = 4 - length s)%nat
    /\ forallb is_lower_hex zeros = true.
Proof.
  unfold padStart. destruct (Nat.leb_spec 4 (length s)) as [H|H].
  - exists []. repeat split. cbn [length]. lia.
  - eexists. split; [reflexivity|]. split.
    + apply fill_to_length. discriminate.
    + apply forallb_forall. intros c Hc.
      apply fill_to_zero in Hc; [now subst|].
      intros x [<-|[]]. reflexivity.
Qed.

Local Open Scope Z_scope.

Lemma wrap32_range z : - 2 ^ 31 <= wrap32 z < 2 ^ 31.
Proof.
  unfold wrap32.
  pose proof (Z.mod_pos_bound z (2 ^ 32) ltac:(lia)) as Hb.
  change (2 ^ 32) with 4294967296 in *.
  change (2 ^ 31) with 2147483648 in *.
  destruct (Z.leb_spec 2147483648 (z mod 4294967296)); lia.
Qed.

Lemma subnet_id_value_range o3 o4 :
  - 2 ^ 31 <= subnet_id_value o3 o4 < 2 ^ 31.
Proof. apply wrap32_range. Qed.

(** The subnet identifier is well formed exactly for values of 16 bits. *)
Lemma subnet_id_hex_well_formed o3 o4 :
  is_hex4 (subnet_id_hex o3 o4) = true
  <-> 0 <= subnet_id_value o3 o4 < 65536.
Proof.
  change (subnet_id_hex o3 o4)
    with (padStart (toString16 (subnet_id_value o3 o4)) 4 (str "0")).
  generalize (subnet_id_value o3 o4). intros v.
  unfold toString16. destruct (Z.ltb_spec v 0) as [Hneg|Hpos].
  - split; [|lia]. intros H. exfalso.
    destruct (padStart_zero_suffix (45%N :: hex_of_N (Z.abs_N v)))
      as (zeros & E & _ & _).
    rewrite E in H. unfold is_hex4 in H. apply andb_true_iff in H. destruct H as [_ H].
    rewrite forallb_app in H. apply andb_true_iff in H. destruct H as [_ H].
    cbn in H. discriminate.
  - destruct (Z.ltb_spec v 65536) as [Hlt|Hge].
    + split; [lia|]. intros _.
      rewrite Zabs2N.abs_N_nonneg, padStart_hex_of_N by lia.
      apply hex4_is_hex4.
    + split; [|lia]. intros H. exfalso.
      assert (L : (4 < length (hex_of_N (Z.abs_N v)))%nat).
      { apply hex_of_N_length_lower. change (16 ^ N.of_nat 4)%N with 65536%N.
        lia. }
      unfold padStart in H.
      destruct (Nat.leb_spec 4 (length (hex_of_N (Z.abs_N v)))); [|lia].
      unfold is_hex4 in H. apply andb_true_iff in H. destruct H as [H _].
      apply Nat.eqb_eq in H. lia.
Qed.

(** X9. The subnet identifier can be read back: for octets in 0-255 the
    fourth group of ipv6subnet, read as a hexadecimal number, is
    [256 * octet3 + octet4], so dividing by 256 returns the third octet
    and the remainder the fourth. *)
Theorem subnet_id_reads_back ipv4 ula octets r n3 n4 :
  ipv4_octets ipv4 = Normal octets ->
  valid_octet (index octets 2) n3 -> valid_octet (index octets 3) n4 ->
  deriveUlaFromIpv4 ipv4 ula = Normal r ->
  exists h v,
    hextet 3 (ipv6subnet r) = Some h
    /\ digits_value 16 0 h = Some v
    /\ Z.of_N v / 256 = n3 /\ Z.of_N v mod 256 = n4.
Proof.
  intros Ho H3 H4 Hr.
  destruct (hextet_3_subnet_id _ _ _ _ Ho Hr) as [Es _].
  rewrite (subnet_id_hex_octets _ _ _ _ H3 H4) in Es.
  destruct H3 as [_ R3], H4 as [_ R4].
  exists (hex4 (Z.to_N (256 * n3 + n4))), (Z.to_N (256 * n3 + n4)).
  split; [exact Es|]. split; [apply digits_value_hex4; lia|].
  rewrite Z2N.id by lia. split; symmetry.
  - apply Z.div_unique with n4; lia.
  - apply Z.mod_unique with n3; lia.
Qed.

Lemma subnet_id_reads_back_witness :
  exists h v,
    hextet 3 (ipv6subnet {| ipv6subnet := str "fd52:425:78eb:1400::/64";
                            ipv6gateway := str "fd52:425:78eb:1400::1" |})
    = Some h
    /\ digits_value 16 0 h = Some v
    /\ Z.of_N v / 256 = 20 /\ Z.of_N v mod 256 = 0.
Proof.
  apply (subnet_id_reads_back (str "192.168.20.0/24")
           (str "fd52:425:78eb::/48")
           (map Number [str "192"; str "168"; str "20"; str "0"]));
    try (vm_compute; reflexivity); split; (vm_compute; reflexivity) || lia.
Defined.

(** X10. The fourth group of the results is a well-formed hextet of four
    lowercase hexadecimal digits exactly when [(octet3 << 8) | octet4] lies
    in 0..65535; a negative value or one of more than 16 bits gives a
    malformed group, and the call still returns. *)
Theorem fourth_group_well_formed_iff ipv4 ula :
  exists octets r h,
    ipv4_octets ipv4 = Normal octets
    /\ deriveUlaFromIpv4 ipv4 ula = Normal r
    /\ hextet 3 (ipv6subnet r) = Some h
    /\ hextet 3 (ipv6gateway r) = Some h
    /\ (is_hex4 h = true
        <-> 0 <= subnet_id_value (index octets 2) (index octets 3) < 65536).
Proof.
  pose proof (ipv4_octets_normal ipv4) as Ho.
  destruct (deriveUlaFromIpv4_total ipv4 ula) as [r Hr].
  destruct (hextet_3_subnet_id _ _ _ _ Ho Hr) as [Es Eg].
  eexists; exists r; eexists.
  split; [exact Ho|]. split; [exact Hr|]. split; [exact Es|].
  split; [exact Eg|]. apply subnet_id_hex_well_formed.
Qed.

(** X11. Whatever the inputs, the fourth group of the results has between
    4 and 9 code units, each a lowercase hexadecimal digit or a minus
    sign: no colon, slash, dot, space or uppercase letter is ever
    written there. *)
Theorem fourth_group_alphabet ipv4 ula :
  exists r h,
    deriveUlaFromIpv4 ipv4 ula = Normal r
    /\ hextet 3 (ipv6subnet r) = Some h
    /\ hextet 3 (ipv6gateway r) = Some h
    /\ (4 <= length h <= 9)%nat
    /\ forallb (fun c => is_lower_hex c || (c =? MINUS)%N) h = true.
Proof.
  pose proof (ipv4_octets_normal ipv4) as Ho.
  destruct (deriveUlaFromIpv4_total ipv4 ula) as [r Hr].
  destruct (hextet_3_subnet_id _ _ _ _ Ho Hr) as [Es Eg].
  exists r; eexists. split; [exact Hr|]. split; [exact Es|].
  split; [exact Eg|].
  set (o3 := index _ 2). set (o4 := index _ 3).
  change (subnet_id_hex o3 o4)
    with (padStart (toString16 (subnet_id_value o3 o4)) 4 (str "0")).
  pose proof (subnet_id_value_range o3 o4) as Hv.
  generalize dependent (subnet_id_value o3 o4). intros v Hv.
  change (2 ^ 31) with 2147483648 in Hv.
  assert (Hn : (Z.abs_N v < 16 ^ 8)%N)
    by (change (16 ^ 8)%N with 4294967296%N; lia).
  pose proof (hex_of_N_length_upper _ Hn) as Hlen.
  assert (Hhex : forallb is_lower_hex (hex_of_N (Z.abs_N v)) = true)
    by (apply to_radix16_lower_hex; reflexivity).
  assert (Hs : (length (toString16 v) <= 9)%nat
               /\ forallb (fun c => is_lower_hex c || (c =? MINUS)%N)
                    (toString16 v) = true).
  { assert (W : forall s, forallb is_lower_hex s = true ->
                  forallb (fun c => is_lower_hex c || (c =? MINUS)%N) s = true).
    { intros s H. rewrite forallb_forall in *. intros c Hc.
      now rewrite (H c Hc). }
    unfold toString16. destruct (v <? 0).
    - cbn [length forallb]. split; [lia|]. rewrite W by assumption.
      reflexivity.
    - split; [lia|now apply W]. }
  destruct Hs as [Hl Ha].
  destruct (padStart_zero_suffix (toString16 v)) as (zeros & -> & Hz & Hzh).
  rewrite length_app, forallb_app, Ha, andb_true_r. split; [lia|].
  rewrite forallb_forall in *. intros c Hc. now rewrite (Hzh c Hc).
Qed.

(** X12. The padding loop needs at most three rounds: with any fuel of 3
    or more it stops with the hextets it was given, in place, followed by
    as many "0" as were missing to reach three; a list of three or more
    is left alone. *)
Theorem padding_loop_result fuel hextets :
  (3 <= fuel)%nat ->
  push_zeros fuel hextets
  = hextets ++ repeat (str "0") (3 - length hextets).
Proof.
  intros Hf.
  destruct fuel as [|[|[|f]]]; try lia.
  destruct hextets as [|a [|b [|c r]]]; cbn.
  - now destruct f.
  - now destruct f.
  - reflexivity.
  - now rewrite app_nil_r.
Qed.

Lemma padding_loop_result_witness :
  push_zeros 7 [str "fd52"]
  = [str "fd52"] ++ repeat (str "0") (3 - length [str "fd52"]).
Proof. apply (padding_loop_result 7 [str "fd52"]). lia. Defined.

(** ** Well-formed inputs, end to end *)

Lemma decimal_octet_check :
  forallb decimal_octet_ok (map Z.of_nat (seq 0 256)) = true.
Proof. vm_compute. reflexivity. Qed.

Lemma decimal_octet_spec n :
  0 <= n <= 255 ->
  valid_octet (Some (Number (decimal_octet n))) n
  /\ ~ In DOT (decimal_octet n) /\ ~ In SLASH (decimal_octet n).
Proof.
  intros Hn.
  assert (Hok : decimal_octet_ok n = true).
  { pose proof decimal_octet_check as H. rewrite forallb_forall in H. apply H.
    rewrite <- (Z2Nat.id n) by lia. apply in_map, in_seq. lia. }
  unfold decimal_octet_ok in Hok. apply andb_true_iff in Hok.
  destruct Hok as [Hv Hc]. apply is_component_spec in Hc.
  split; [|exact Hc].
  split; [|assumption]. cbn [octet_value].
  destruct (integer_value (Number (decimal_octet n))) as [m|]; [|discriminate].
  apply Z.eqb_eq in Hv. now subst.
Qed.

Lemma ipv4_octets_text o1 o2 o3 o4 suffix :
  0 <= o1 <= 255 -> 0 <= o2 <= 255 -> 0 <= o3 <= 255 -> 0 <= o4 <= 255 ->
  ipv4_octets (ipv4_text o1 o2 o3 o4 suffix)
  = Normal (map (fun o => Number (decimal_octet o)) [o1; o2; o3; o4]).
Proof.
  intros H1 H2 H3 H4.
  destruct (decimal_octet_spec o1 H1) as (_ & D1 & S1).
  destruct (decimal_octet_spec o2 H2) as (_ & D2 & S2).
  destruct (decimal_octet_spec o3 H3) as (_ & D3 & S3).
  destruct (decimal_octet_spec o4 H4) as (_ & D4 & S4).
  pose proof (dotted_no_slash _ _ _ _ S1 S2 S3 S4) as Hs.
  unfold ipv4_text. destruct suffix as [len|].
  - rewrite ipv4_octets_suffix by assumption.
    now apply ipv4_octets_dotted.
  - rewrite app_nil_r. now apply ipv4_octets_dotted.
Qed.

(** X13. End to end on well-formed inputs: for every dotted quad of
    decimal octets o1.o2.o3.o4, with or without a prefix length, and
    every ULA prefix h0:h1:h2::... of three leading hextets, the call
    returns the subnet h0:h1:h2:XXXX::/64 and the gateway
    h0:h1:h2:XXXX::1, where XXXX is the four hexadecimal digits of
    [256 * o3 + o4]. *)
Theorem well_formed_inputs_end_to_end o1 o2 o3 o4 suffix h0 h1 h2 rest :
  0 <= o1 <= 255 -> 0 <= o2 <= 255 -> 0 <= o3 <= 255 -> 0 <= o4 <= 255 ->
  forallb is_hextet_text [h0; h1; h2] = true ->
  let net := h0 ++ str ":" ++ h1 ++ str ":" ++ h2 ++ str ":"
               ++ hex4 (Z.to_N (256 * o3 + o4)) in
  deriveUlaFromIpv4 (ipv4_text o1 o2 o3 o4 suffix)
    (ula_text [h0; h1; h2] rest)
  = Normal {| ipv6subnet := net ++ str "::/64";
              ipv6gateway := net ++ str "::1" |}.
Proof.
  intros H1 H2 H3 H4 Hall net.
  pose proof (ipv4_octets_text o1 o2 o3 o4 suffix H1 H2 H3 H4) as Ho.
  assert (Hh : ula_hextets (ula_text [h0; h1; h2] rest) = Normal [h0; h1; h2])
    by (apply ula_hextets_text; [discriminate|now apply are_hextet_texts]).
  rewrite (deriveUlaFromIpv4_eq _ _ _ _ Ho Hh). cbv zeta.
  cbn [map index nth_error push_zeros length Nat.ltb Nat.leb firstn join].
  destruct (decimal_octet_spec o3 H3) as (V3 & _).
  destruct (decimal_octet_spec o4 H4) as (V4 & _).
  rewrite (subnet_id_hex_octets _ _ _ _ V3 V4).
  subst net. f_equal. f_equal; repeat rewrite <- app_assoc; reflexivity.
Qed.

Lemma well_formed_inputs_end_to_end_witness :
  let net := str "fd52" ++ str ":" ++ str "425" ++ str ":" ++ str "78eb"
               ++ str ":" ++ hex4 (Z.to_N (256 * 20 + 0)) in
  deriveUlaFromIpv4 (ipv4_text 192 168 20 0 (Some (str "24")))
    (ula_text [str "fd52"; str "425"; str "78eb"] (str "/48"))
  = Normal {| ipv6subnet := net ++ str "::/64";
              ipv6gateway := net ++ str "::1" |}.
Proof.
  apply (well_formed_inputs_end_to_end 192 168 20 0 (Some (str "24"))
           (str "fd52") (str "425") (str "78eb") (str "/48"));
    lia || reflexivity.
Defined.

(** * The list views *)

Lemma get_nullish v key : is_nullish v = true -> get v key = Throw TypeError.
Proof. destruct v; cbn; congruence. Qed.

Lemma get_non_nullish v key :
  is_nullish v = false -> exists w, get v key = Normal w.
Proof. destruct v; cbn; try discriminate; eauto. Qed.

Lemma truthy_not_nullish v : ToBoolean v = true -> is_nullish v = false.
Proof. destruct v; cbn; congruence. Qed.

Lemma get_truthy v key : ToBoolean v = true -> exists w, get v key = Normal w.
Proof. intros H. now apply get_non_nullish, truthy_not_nullish. Qed.

Lemma or_else_truthy a b : ToBoolean b = true -> ToBoolean (or_else a b) = true.
Proof. unfold or_else. intros H. now destruct (ToBoolean a) eqn:E. Qed.

Lemma Str_truthy s : s <> [] -> ToBoolean (Str s) = true.
Proof. destruct s; [contradiction|reflexivity]. Qed.

Lemma jsstring_eqb_refl a : jsstring_eqb a a = true.
Proof. induction a as [|x a IH]; [reflexivity|]. cbn. now rewrite N.eqb_refl. Qed.

(** The three [load] functions differ in the key and the message only. *)
Lemma load_contract_of key msg (translate : jsstring -> jsstring) load test :
  (forall rpc,
      load rpc
      = match rpc with
        | Fulfilled v => Normal (Obj [(key, or_else v (Arr []))])
        | Rejected err =>
            message <- get err (str "message") ;;
            Normal (Obj [(str "error",
                          or_else message (Str (translate msg)))])
        end) ->
  (forall data,
      test data
      = (c <- (if ToBoolean data then get data (str "error")
               else Normal data) ;;
         Normal (ToBoolean c))) ->
  jsstring_eqb key (str "error") = false ->
  translate msg <> [] ->
  load_contract key load test.
Proof.
  intros Hload Htest Hkey Htr. repeat split.
  - intros v. do 2 eexists. rewrite Hload, Htest.
    split; [reflexivity|]. cbn [get lookup ToBoolean bind].
    rewrite jsstring_eqb_refl, Hkey. cbn [ToBoolean].
    split; [reflexivity|]. unfold or_else.
    destruct (ToBoolean v) eqn:E; repeat split; congruence.
  - intros err Hn.
    destruct (get_non_nullish err (str "message") Hn) as [m Hm].
    set (e := or_else m (Str (translate msg))).
    assert (T : ToBoolean e = true) by now apply or_else_truthy, Str_truthy.
    assert (G : get (Obj [(str "error", e)]) (str "error") = Normal e)
      by reflexivity.
    exists (Obj [(str "error", e)]), e.
    rewrite Hload, Htest, Hm. cbn [bind ToBoolean]. rewrite G.
    cbn [bind]. rewrite T. repeat split.
  - intros err Hn. now rewrite Hload, (get_nullish _ _ Hn).
Qed.

(** X14. In each of the three list views, [load] and the first test of
    [render] fit together.  When the RPC promise is fulfilled, [load]
    returns an object whose list is never falsy (an empty array stands in
    for a falsy payload) and [render] does not take its error branch.
    When the promise is rejected with a reason other than [null] and
    [undefined], [load] returns an object with a truthy [error] and
    [render] takes its error branch.  When the reason is [null] or
    [undefined], reading its [message] throws and [load] itself is
    rejected. *)
Theorem load_and_render_error_test translate :
  (forall msg, msg <> [] -> translate msg <> []) ->
  load_contract (str "secrets") (secrets.load translate)
    secrets.render_error_test
  /\ load_contract (str "containers") (containers.load translate)
       containers.render_error_test
  /\ load_contract (str "pods") (pods.load translate) pods.render_error_test.
Proof.
  intros Htr. split; [|split].
  - apply (load_contract_of (str "secrets") (str "Failed to load secrets")
             translate).
    + intros rpc. destruct rpc; reflexivity.
    + reflexivity.
    + reflexivity.
    + apply Htr. discriminate.
  - apply (load_contract_of (str "containers")
             (str "Failed to load containers") translate).
    + intros rpc. destruct rpc; reflexivity.
    + reflexivity.
    + reflexivity.
    + apply Htr. discriminate.
  - apply (load_contract_of (str "pods") (str "Failed to load pods")
             translate).
    + intros rpc. destruct rpc; reflexivity.
    + reflexivity.
    + reflexivity.
    + apply Htr. discriminate.
Qed.

Lemma load_and_render_error_test_witness :
  load_contract (str "secrets") (secrets.load (fun msg => msg))
    secrets.render_error_test
  /\ load_contract (str "containers") (containers.load (fun msg => msg))
       containers.render_error_test
  /\ load_contract (str "pods") (pods.load (fun msg => msg))
       pods.render_error_test.
Proof.
  apply (load_and_render_error_test (fun msg => msg)).
  intros msg H. exact H.
Defined.

(** The name a secret is known by: [Spec.Name] when truthy, else [Name]. *)
Lemma selected_name_cases secret :
  is_nullish secret = false ->
  exists spec name,
    get secret (str "Spec") = Normal spec
    /\ get secret (str "Name") = Normal name
    /\ ((exists nm, ToBoolean spec = true
                    /\ get spec (str "Name") = Normal nm
                    /\ ToBoolean nm = true
                    /\ secrets.selected_name secret = Normal nm
                    /\ forall translate,
                        secrets.Name_text translate secret = Normal nm)
        \/ (secrets.selected_name secret = Normal name
            /\ forall translate,
                secrets.Name_text translate secret
                = Normal (or_else name (Str (translate (str "Unknown")))))).
Proof.
  intros Hn.
  destruct (get_non_nullish secret (str "Spec") Hn) as [spec Hs].
  destruct (get_non_nullish secret (str "Name") Hn) as [name Hm].
  exists spec, name. split; [exact Hs|]. split; [exact Hm|].
  unfold secrets.selected_name, secrets.Name_text. rewrite Hs, Hm.
  cbn [bind]. destruct (ToBoolean spec) eqn:Es.
  - destruct (get_truthy spec (str "Name") Es) as [nm Hnm].
    rewrite Hnm. cbn [bind]. destruct (ToBoolean nm) eqn:En.
    + left. exists nm. repeat split; assumption || reflexivity.
    + right. split; reflexivity.
  - cbn [bind]. rewrite Es. right. split; reflexivity.
Qed.

(** X15. In the secrets view the name shown in the Name column and the
    name handed to deletion by [getSelectedSecrets] agree whenever the
    latter is truthy; when it is falsy (no [Spec.Name] and no [Name]) the
    column shows the translated "Unknown" while deletion receives the
    falsy value.  Both throw TypeError for a secret that is [null] or
    [undefined]. *)
Theorem secret_shown_and_selected_name translate secret :
  if is_nullish secret
  then secrets.Name_text translate secret = Throw TypeError
       /\ secrets.selected_name secret = Throw TypeError
  else exists chosen,
         secrets.selected_name secret = Normal chosen
         /\ secrets.Name_text translate secret
            = Normal (if ToBoolean chosen then chosen
                      else Str (translate (str "Unknown"))).
Proof.
  destruct (is_nullish secret) eqn:Hn.
  - unfold secrets.Name_text, secrets.selected_name.
    rewrite (get_nullish _ _ Hn). split; reflexivity.
  - destruct (selected_name_cases secret Hn)
      as (spec & name & _ & _ & [(nm & _ & _ & Hnm & Hsel & Htext)|[Hsel Htext]]).
    + exists nm. rewrite Htext, Hsel, Hnm. split; reflexivity.
    + exists name. rewrite Htext, Hsel. split; reflexivity.
Qed.

(** X16. The Name column never shows a falsy text: for every secret and
    every pod that is not [null] or [undefined], [o.text] returns a truthy
    value, the translated "Unknown" standing in for a name that is absent,
    empty, [null], [false], 0 or NaN. *)
Theorem name_text_is_truthy translate v :
  translate (str "Unknown") <> [] ->
  is_nullish v = false ->
  (exists shown,
      secrets.Name_text translate v = Normal shown
      /\ ToBoolean shown = true)
  /\ (exists shown,
         pods.Name_text translate v = Normal shown
         /\ ToBoolean shown = true).
Proof.
  intros Htr Hn.
  assert (T : forall name,
             ToBoolean (or_else name (Str (translate (str "Unknown")))) = true)
    by (intros; now apply or_else_truthy, Str_truthy).
  split.
  - destruct (selected_name_cases v Hn)
      as (spec & name & _ & _ & [(nm & _ & _ & Hnm & _ & Htext)|[_ Htext]]);
      rewrite Htext; eexists; split; try reflexivity; auto.
  - unfold pods.Name_text.
    destruct (get_non_nullish v (str "Name") Hn) as [name ->].
    cbn [bind]. eexists; split; [reflexivity|apply T].
Qed.

Lemma name_text_is_truthy_witness :
  (exists shown,
      secrets.Name_text (fun msg => msg) (Obj [(str "Name", Str [])])
      = Normal shown
      /\ ToBoolean shown = true)
  /\ (exists shown,
         pods.Name_text (fun msg => msg) (Obj [(str "Name", Str [])])
         = Normal shown
         /\ ToBoolean shown = true).
Proof.
  apply (name_text_is_truthy (fun msg => msg) (Obj [(str "Name", Str [])]));
    [discriminate|reflexivity].
Defined.

(** X17. The Driver column of the secrets view, for the secret that its
    first statement read: a secret that is [null] or [undefined] makes
    the call throw TypeError; any other secret makes it return, whatever
    parts of [Spec.Driver.Name] are missing, with
    [secret.Spec.Driver.Name] when [Spec], [Spec.Driver] and
    [Spec.Driver.Name] are all truthy and with the translated "file" as
    soon as one of them is falsy. *)
Theorem driver_cfgvalue_falls_back translate secret :
  let file := Str (translate (str "file")) in
  if is_nullish secret
  then secrets.Driver_cfgvalue translate secret = Throw TypeError
  else
    exists spec,
      get secret (str "Spec") = Normal spec
      /\ if ToBoolean spec
         then exists driver,
                get spec (str "Driver") = Normal driver
                /\ if ToBoolean driver
                   then exists name,
                          get driver (str "Name") = Normal name
                          /\ secrets.Driver_cfgvalue translate secret
                             = Normal (if ToBoolean name then name else file)
                   else secrets.Driver_cfgvalue translate secret = Normal file
         else secrets.Driver_cfgvalue translate secret = Normal file.
Proof.
  intros file. unfold secrets.Driver_cfgvalue.
  destruct (is_nullish secret) eqn:Hn.
  - now rewrite (get_nullish _ _ Hn).
  - destruct (get_non_nullish secret (str "Spec") Hn) as [spec Hs].
    exists spec. split; [exact Hs|]. rewrite Hs. cbn [bind].
    destruct (ToBoolean spec) eqn:Es.
    + destruct (get_truthy spec (str "Driver") Es) as [driver Hdr].
      exists driver. split; [exact Hdr|]. rewrite Hdr. cbn [bind].
      destruct (ToBoolean driver) eqn:Ed.
      * destruct (get_truthy driver (str "Name") Ed) as [name Hnm].
        exists name. split; [exact Hnm|]. rewrite Hnm. cbn [bind].
        now destruct (ToBoolean name).
      * cbn [bind]. now rewrite Ed.
    + cbn [bind]. rewrite Es. cbn [bind]. now rewrite Es.
Qed.
